(** * ai-bridge: provider dispatch, stream decoding and cache keys

    A shallow embedding of the parts of the [ai-bridge] package that its
    design document makes promises about:

    - [src/openai/getChatCompletion.js]: the two-attempt request loop and
      the server-sent-event decoder;
    - [src/AiBridge.js]: the constructor's key check, the partition
      ("temp") key and the cache hit / miss paths of [getChatCompletion];
    - the MongoDB cache backend: lookup and upsert of embedding records.

    JavaScript strings are modelled as [string] over ASCII text, JSON
    numbers as integers, [undefined] as [None] of an [option json].
    Network, random source, tokenizer and the layer cache are inputs of
    the functions that use them.  The stream listener is an observer: its
    calls are recorded, in order, and it returns normally. *)

From Stdlib Require Import ZArith QArith Qround Ascii String List Lia Bool.
From stdpp Require Import base list strings pretty sorting gmap.

Local Open Scope Z_scope.

(** ** JavaScript strings *)

Module JSString.

Fixpoint drop (n : nat) (s : string) : string :=
  match n, s with
  | O, _ => s
  | S n', String _ s' => drop n' s'
  | S _, EmptyString => EmptyString
  end.

Fixpoint take (n : nat) (s : string) : string :=
  match n, s with
  | O, _ => EmptyString
  | S n', String c s' => String c (take n' s')
  | S _, EmptyString => EmptyString
  end.

(** [s.startsWith(p)] *)
Definition startsWith (s p : string) : bool := String.prefix p s.

(** [s.endsWith(p)] *)
Definition endsWith (s p : string) : bool :=
  String.eqb (drop (String.length s - String.length p) s) p
  && (String.length p <=? String.length s)%nat.

(** [s.indexOf(p)]: [None] stands for [-1]. *)
Definition indexOf (s p : string) : option nat := String.index 0 p s.

(** [s.slice(n)] and [s.slice(0, n)] for a non-negative [n]. *)
Definition slice (s : string) (n : nat) : string := drop n s.
Definition slice0 (s : string) (n : nat) : string := take n s.

(** White space and line terminators of the ASCII range, the characters
    [String.prototype.trim] strips. *)
Definition is_space (c : ascii) : bool :=
  let n := nat_of_ascii c in
  ((9 <=? n) && (n <=? 13) || (n =? 32))%nat.

Fixpoint trimStart (s : string) : string :=
  match s with
  | String c s' => if is_space c then trimStart s' else s
  | EmptyString => EmptyString
  end.

Fixpoint rev_onto (s acc : string) : string :=
  match s with
  | EmptyString => acc
  | String c s' => rev_onto s' (String c acc)
  end.

Definition rev (s : string) : string := rev_onto s EmptyString.

Definition trimEnd (s : string) : string := rev (trimStart (rev s)).

Definition trim (s : string) : string := trimEnd (trimStart s).

Definition NL : string := String (ascii_of_nat 10) EmptyString.
Definition NLNL : string := NL +:+ NL.

(** [ls.join(sep)] *)
Definition join (sep : string) (ls : list string) : string :=
  String.concat sep ls.

End JSString.

(** ** JSON values as JavaScript sees them *)

Module JS.
Import JSString.

Local Unset Elimination Schemes.

Inductive json : Type :=
| JNull : json
| JBool : bool -> json
| JNum : Z -> json
| JStr : string -> json
| JArr : list json -> json
| JObj : list (string * json) -> json.

Local Set Elimination Schemes.

(** Induction with the hypothesis available for every element of an
    array and every field value of an object. *)
Definition json_ind (P : json -> Prop)
    (Hnull : P JNull)
    (Hbool : forall b, P (JBool b))
    (Hnum : forall z, P (JNum z))
    (Hstr : forall s, P (JStr s))
    (Harr : forall l, Forall P l -> P (JArr l))
    (Hobj : forall fs, Forall (fun kv => P (snd kv)) fs -> P (JObj fs)) :
  forall j, P j :=
  fix go (j : json) : P j :=
    match j with
    | JNull => Hnull
    | JBool b => Hbool b
    | JNum z => Hnum z
    | JStr s => Hstr s
    | JArr l =>
        Harr l ((fix elems (l : list json) : Forall P l :=
                   match l with
                   | [] => List.Forall_nil P
                   | x :: l' => @List.Forall_cons _ P x l' (go x) (elems l')
                   end) l)
    | JObj fs =>
        Hobj fs ((fix fields (fs : list (string * json)) :
                    Forall (fun kv => P (snd kv)) fs :=
                    match fs with
                    | [] => List.Forall_nil _
                    | kv :: fs' =>
                        @List.Forall_cons _ _ kv fs' (go (snd kv)) (fields fs')
                    end) fs)
    end.

(** A JavaScript value is a JSON value or [undefined]. *)
Definition value : Type := option json.
Definition undefined : value := None.

(** ToBoolean *)
Definition truthy (v : value) : bool :=
  match v with
  | None => false
  | Some JNull => false
  | Some (JBool b) => b
  | Some (JNum z) => negb (z =? 0)
  | Some (JStr s) => negb (String.eqb s "")
  | Some (JArr _) => true
  | Some (JObj _) => true
  end.

(** [v == null] *)
Definition nullish (v : value) : bool :=
  match v with
  | None | Some JNull => true
  | _ => false
  end.

(** The value of the own property [k], [None] when there is none. *)
Fixpoint assoc {A : Type} (k : string) (fs : list (string * A)) : option A :=
  match fs with
  | [] => None
  | (k', v) :: fs' => if String.eqb k k' then Some v else assoc k fs'
  end.

(** Structural equality of JSON values: same shape, same fields in the
    same order. *)
Fixpoint json_eqb (a b : json) : bool :=
  match a, b with
  | JNull, JNull => true
  | JBool x, JBool y => Bool.eqb x y
  | JNum x, JNum y => (x =? y)%Z
  | JStr x, JStr y => String.eqb x y
  | JArr l1, JArr l2 =>
      (fix all2 (l1 l2 : list json) : bool :=
         match l1, l2 with
         | [], [] => true
         | x :: l1', y :: l2' => json_eqb x y && all2 l1' l2'
         | _, _ => false
         end) l1 l2
  | JObj f1, JObj f2 =>
      (fix all2 (f1 f2 : list (string * json)) : bool :=
         match f1, f2 with
         | [], [] => true
         | (k1, x) :: f1', (k2, y) :: f2' =>
             String.eqb k1 k2 && json_eqb x y && all2 f1' f2'
         | _, _ => false
         end) f1 f2
  | _, _ => false
  end.

(** What a failed evaluation throws. *)
Inductive thrown : Type :=
| Str (s : string)            (* throw `...` *)
| ErrorObj (msg : string)     (* throw Error(msg) *)
| TypeError                   (* property read on null or undefined *)
| SyntaxError                 (* JSON.parse, resp.json() *)
| FetchError (detail : string). (* rejected fetch or read *)

(** [v.k] for an own property [k] that is not an array index; reading a
    property of [null] or [undefined] throws. *)
Definition prop (v : value) (k : string) : thrown + value :=
  match v with
  | None | Some JNull => inl TypeError
  | Some (JObj fs) => inr (assoc k fs)
  | Some _ => inr None
  end.

(** [v[0]] *)
Definition first (v : value) : thrown + value :=
  match v with
  | None | Some JNull => inl TypeError
  | Some (JObj fs) => inr (assoc "0" fs)
  | Some (JArr l) => inr (head l)
  | Some (JStr (String c _)) => inr (Some (JStr (String c EmptyString)))
  | Some _ => inr None
  end.

(** [v?.k] *)
Definition optprop (v : value) (k : string) : value :=
  match prop v k with
  | inl _ => None
  | inr r => r
  end.

(** [a || b] *)
Definition or_else (a b : value) : value := if truthy a then a else b.

(** ToString *)
Fixpoint toString (j : json) : string :=
  match j with
  | JNull => "null"
  | JBool true => "true"
  | JBool false => "false"
  | JNum z => pretty z
  | JStr s => s
  | JArr l =>
      join "," (List.map (fun e => match e with
                                   | JNull => ""
                                   | _ => toString e
                                   end) l)
  | JObj _ => "[object Object]"
  end.

Definition toStringV (v : value) : string :=
  match v with
  | None => "undefined"
  | Some j => toString j
  end.

(** String(e) for a thrown value, as template strings and [join] see it;
    of the errors the engine raises only the name is kept. *)
Definition thrownToString (e : thrown) : string :=
  match e with
  | Str s => s
  | ErrorObj msg => "Error: " +:+ msg
  | TypeError => "TypeError"
  | SyntaxError => "SyntaxError"
  | FetchError d => "FetchError: " +:+ d
  end.

(** The falsy thrown values: only the empty string, among these. *)
Definition thrownTruthy (e : thrown) : bool :=
  match e with
  | Str s => negb (String.eqb s "")
  | _ => true
  end.

End JS.

(** ** The JSON builtins

    [JSON.stringify] and [JSON.parse] for the integer fragment of JSON
    (no fractions, no exponents, no [\u] escapes).  The decoder below is
    parametric in the parser; this one is used where a concrete payload is
    decoded. *)

Module JSON.
Import JSString JS.

Definition DQ : string := String (ascii_of_nat 34) EmptyString.
Definition BS : string := String (ascii_of_nat 92) EmptyString.

Definition hexdigit (n : nat) : string :=
  String.substring n 1 "0123456789abcdef".

Definition escape (c : ascii) : string :=
  let n := nat_of_ascii c in
  if (n =? 34)%nat then BS +:+ DQ
  else if (n =? 92)%nat then BS +:+ BS
  else if (n =? 8)%nat then BS +:+ "b"
  else if (n =? 12)%nat then BS +:+ "f"
  else if (n =? 10)%nat then BS +:+ "n"
  else if (n =? 13)%nat then BS +:+ "r"
  else if (n =? 9)%nat then BS +:+ "t"
  else if (n <? 32)%nat then
    BS +:+ "u00" +:+ hexdigit (n / 16) +:+ hexdigit (n mod 16)
  else String c EmptyString.

Fixpoint escape_all (s : string) : string :=
  match s with
  | EmptyString => EmptyString
  | String c s' => escape c +:+ escape_all s'
  end.

(** [JSON.stringify(s)] for a string [s] *)
Definition quote (s : string) : string := DQ +:+ escape_all s +:+ DQ.

(** [JSON.stringify(j)]: fields in insertion order. *)
Fixpoint stringify (j : json) : string :=
  match j with
  | JNull => "null"
  | JBool true => "true"
  | JBool false => "false"
  | JNum z => pretty z
  | JStr s => quote s
  | JArr l => "[" +:+ join "," (List.map stringify l) +:+ "]"
  | JObj fs =>
      "{" +:+ join "," (List.map (fun kv => quote (fst kv) +:+ ":" +:+ stringify (snd kv)) fs)
          +:+ "}"
  end.

Definition is_ws (c : ascii) : bool :=
  let n := nat_of_ascii c in
  ((n =? 32) || (n =? 9) || (n =? 10) || (n =? 13))%nat.

Fixpoint skip_ws (s : string) : string :=
  match s with
  | String c s' => if is_ws c then skip_ws s' else s
  | EmptyString => EmptyString
  end.

Definition unescape (c : ascii) : option ascii :=
  let n := nat_of_ascii c in
  if (n =? 34)%nat || (n =? 92)%nat || (n =? 47)%nat then Some c
  else if (n =? 98)%nat then Some (ascii_of_nat 8)
  else if (n =? 102)%nat then Some (ascii_of_nat 12)
  else if (n =? 110)%nat then Some (ascii_of_nat 10)
  else if (n =? 114)%nat then Some (ascii_of_nat 13)
  else if (n =? 116)%nat then Some (ascii_of_nat 9)
  else None.

(** The characters of a string literal after its opening quote. *)
Fixpoint parse_string (s : string) : option (string * string) :=
  match s with
  | EmptyString => None
  | String c s' =>
      let n := nat_of_ascii c in
      if (n =? 34)%nat then Some (EmptyString, s')
      else if (n =? 92)%nat then
        match s' with
        | String e s'' =>
            match unescape e, parse_string s'' with
            | Some c', Some (r, rest) => Some (String c' r, rest)
            | _, _ => None
            end
        | EmptyString => None
        end
      else if (n <? 32)%nat then None
      else match parse_string s' with
           | Some (r, rest) => Some (String c r, rest)
           | None => None
           end
  end.

Definition digit (c : ascii) : option Z :=
  let n := nat_of_ascii c in
  if ((48 <=? n) && (n <=? 57))%nat then Some (Z.of_nat (n - 48)) else None.

Fixpoint parse_digits (s : string) (acc : Z) : Z * string :=
  match s with
  | String c s' =>
      match digit c with
      | Some d => parse_digits s' (10 * acc + d)
      | None => (acc, s)
      end
  | EmptyString => (acc, s)
  end.

(** An integer literal: [0], or a non-zero digit followed by digits. *)
Definition parse_nat (s : string) : option (Z * string) :=
  match s with
  | String c s' =>
      match digit c with
      | Some 0 => Some (0, s')
      | Some d => Some (parse_digits s' d)
      | None => None
      end
  | EmptyString => None
  end.

Definition integral (r : Z * string) : option (Z * string) :=
  match snd r with
  | String c _ =>
      if Ascii.eqb c "." || Ascii.eqb c "e" || Ascii.eqb c "E" then None
      else Some r
  | EmptyString => Some r
  end.

Definition parse_number (s : string) : option (json * string) :=
  match s with
  | String c s' =>
      if Ascii.eqb c "-" then
        match parse_nat s' ≫= integral with
        | Some (z, rest) => Some (JNum (- z), rest)
        | None => None
        end
      else
        match parse_nat s ≫= integral with
        | Some (z, rest) => Some (JNum z, rest)
        | None => None
        end
  | EmptyString => None
  end.

Definition expect (lit : string) (j : json) (s : string) : option (json * string) :=
  if startsWith s lit then Some (j, drop (String.length lit) s) else None.

(** A repeated key keeps its first position and takes the last value. *)
Fixpoint set_field (k : string) (v : json) (fs : list (string * json)) :
    list (string * json) :=
  match fs with
  | [] => [(k, v)]
  | (k', v') :: fs' =>
      if String.eqb k k' then (k', v) :: fs' else (k', v') :: set_field k v fs'
  end.

Fixpoint parse_value (fuel : nat) (s : string) : option (json * string) :=
  match fuel with
  | O => None
  | S fuel' =>
      match skip_ws s with
      | String c rest =>
          if Ascii.eqb c "{" then
            match skip_ws rest with
            | String c' rest' =>
                if Ascii.eqb c' "}" then Some (JObj [], rest')
                else match parse_members fuel' rest [] with
                     | Some (fs, r) => Some (JObj fs, r)
                     | None => None
                     end
            | EmptyString => None
            end
          else if Ascii.eqb c "[" then
            match skip_ws rest with
            | String c' rest' =>
                if Ascii.eqb c' "]" then Some (JArr [], rest')
                else match parse_elements fuel' rest with
                     | Some (l, r) => Some (JArr l, r)
                     | None => None
                     end
            | EmptyString => None
            end
          else if Ascii.eqb c (ascii_of_nat 34) then
            match parse_string rest with
            | Some (str, r) => Some (JStr str, r)
            | None => None
            end
          else if Ascii.eqb c "t" then expect "true" (JBool true) (String c rest)
          else if Ascii.eqb c "f" then expect "false" (JBool false) (String c rest)
          else if Ascii.eqb c "n" then expect "null" JNull (String c rest)
          else parse_number (String c rest)
      | EmptyString => None
      end
  end
with parse_members (fuel : nat) (s : string) (acc : list (string * json)) :
    option (list (string * json) * string) :=
  match fuel with
  | O => None
  | S fuel' =>
      match skip_ws s with
      | String c rest =>
          if Ascii.eqb c (ascii_of_nat 34) then
            match parse_string rest with
            | Some (k, r) =>
                match skip_ws r with
                | String c1 r1 =>
                    if Ascii.eqb c1 ":" then
                      match parse_value fuel' r1 with
                      | Some (v, r2) =>
                          match skip_ws r2 with
                          | String c2 r3 =>
                              if Ascii.eqb c2 "," then
                                parse_members fuel' r3 (set_field k v acc)
                              else if Ascii.eqb c2 "}" then
                                Some (set_field k v acc, r3)
                              else None
                          | EmptyString => None
                          end
                      | None => None
                      end
                    else None
                | EmptyString => None
                end
            | None => None
            end
          else None
      | EmptyString => None
      end
  end
with parse_elements (fuel : nat) (s : string) : option (list json * string) :=
  match fuel with
  | O => None
  | S fuel' =>
      match parse_value fuel' s with
      | Some (v, r) =>
          match skip_ws r with
          | String c r1 =>
              if Ascii.eqb c "," then
                match parse_elements fuel' r1 with
                | Some (l, r2) => Some (v :: l, r2)
                | None => None
                end
              else if Ascii.eqb c "]" then Some ([v], r1)
              else None
          | EmptyString => None
          end
      | None => None
      end
  end.

(** [JSON.parse(s)]; [None] when it throws a SyntaxError. *)
Definition parse (s : string) : option json :=
  match parse_value (S (String.length s)) s with
  | Some (j, rest) =>
      match skip_ws rest with
      | EmptyString => Some j
      | _ => None
      end
  | None => None
  end.

End JSON.

(** ** [src/openai/getChatCompletion.js]

    The request is taken as [getChatCompletion] holds it at line 105:
    [reqJson] normalised, [rawApi] extracted.  What the function then
    does depends on the network only, which is an argument: the result of
    the [tries]-th [fetch] for the plain branch, the response stream for
    the streaming branch. *)

Module OpenAI.
Import JSString JS.

(** One argument of a [console.warn] call. *)
Inductive logarg : Type :=
| LStr (s : string)
| LVal (v : value)
| LThrown (e : thrown).

Definition warning : Type := list logarg.

Inductive outcome : Type :=
| Return (v : json)
| Throw (e : thrown).

(** What a call leaves behind: how it ended, the arguments
    [streamListener] was called with (in order), the warnings written to
    the console (in order) and the number of [fetch] calls made. *)
Record Run : Type := {
  result : outcome;
  listener : list json;
  console : list warning;
  fetches : nat
}.

Definition bind {A B} (x : thrown + A) (k : A -> thrown + B) : thrown + B :=
  match x with
  | inl e => inl e
  | inr a => k a
  end.

Local Notation "'let*' x ':=' e 'in' k" := (bind e (fun x => k))
  (at level 10, x name, e at level 100, k at level 200, only parsing).

(** [a && b]: [b] is evaluated only when [a] is truthy. *)
Definition and_then (a : value) (b : thrown + value) : thrown + value :=
  if truthy a then b else inr a.

(** The value tested by [if (v)], when the test passes. *)
Definition whenTruthy (v : value) : option json :=
  if truthy v then v else None.

(** *** Plain (non streaming) requests, lines 114-167 and 284-300 *)

(** [await fetch(...)] followed by [await resp.json()]. *)
Inductive FetchResult : Type :=
| FetchFail (e : thrown)
| FetchBody (respJson : json).

(** How the body of the [try] block ends once [respJson] is there. *)
Inductive attempt : Type :=
| Returned (v : json) (calls : list json)
| Raised (e : thrown) (warns : list warning).

Definition MISSING : string :=
  "Missing valid openai response, please check warn logs for more details".

(** Lines 139-146 and 152-159. *)
Definition completion (useRawApi : bool) (respJson finalStr : json) : attempt :=
  if useRawApi then Returned respJson [] else Returned finalStr [finalStr].

(** Lines 134-163, after the error check. *)
Definition readChoices (useRawApi : bool) (respJson : json) : thrown + attempt :=
  let* choices := prop (Some respJson) "choices" in
  let* c0 := and_then choices (first choices) in
  if truthy c0 then
    let* message := prop c0 "message" in
    let* content := and_then message (prop message "content") in
    match whenTruthy content with
    | Some finalStr => inr (completion useRawApi respJson finalStr)
    | None =>
        let* text := prop c0 "text" in
        match whenTruthy text with
        | Some finalStr => inr (completion useRawApi respJson finalStr)
        | None => inr (Returned JNull [])
        end
    end
  else inr (Returned JNull []).

(** Lines 127-163: the [try] body from [respJson] on. *)
Definition tryBody (useRawApi : bool) (respJson : json) : attempt :=
  match prop (Some respJson) "error" with
  | inl e => Raised e []
  | inr err =>
      if truthy err then
        Raised (Str ("[" +:+ toStringV (optprop err "type") +:+ "] "
                         +:+ toStringV (optprop (Some respJson) "message")))
               [[LStr "getChatCompletion API error"; LVal err]]
      else
        match readChoices useRawApi respJson with
        | inl e => Raised e []
        | inr a => a
        end
  end.

(** The variables that outlive an attempt. *)
Record LoopSt : Type := {
  respJson : json;
  respErr : option thrown;
  warned : list warning;
  tries : nat
}.

Inductive loopResult : Type :=
| Done (v : json) (calls : list json) (st : LoopSt)
| Exhausted (st : LoopSt).

Section Plain.
Variable reqJson : json.
Variable useRawApi : bool.
Variable fetch : nat -> FetchResult.

(** [for (let tries = 0; tries < 2; ++tries) { try { ... } catch (e)
    { respErr = e } }], with [remaining] iterations to go. *)
Fixpoint requestLoop (remaining : nat) (st : LoopSt) : loopResult :=
  match remaining with
  | O => Exhausted st
  | S n =>
      match fetch (tries st) with
      | FetchFail e =>
          requestLoop n {| respJson := respJson st; respErr := Some e;
                           warned := warned st; tries := S (tries st) |}
      | FetchBody j =>
          match tryBody useRawApi j with
          | Returned v calls =>
              Done v calls {| respJson := j; respErr := respErr st;
                              warned := warned st; tries := S (tries st) |}
          | Raised e ws =>
              requestLoop n {| respJson := j; respErr := Some e;
                               warned := warned st ++ ws; tries := S (tries st) |}
          end
      end
  end.

(** Lines 284-299: the report written before the final [throw]. *)
Definition report (st : LoopSt) : warning :=
  match respErr st with
  | Some e =>
      if thrownTruthy e then
        [LStr (join NL ["## Unable to handle prompt for ...";
                        JSON.stringify reqJson;
                        "## Recieved error ...";
                        thrownToString e])]
      else
        [LStr (join NL ["## Unable to handle prompt for ...";
                        JSON.stringify reqJson;
                        "## Recieved response ...";
                        JSON.stringify (respJson st)])]
  | None =>
      [LStr (join NL ["## Unable to handle prompt for ...";
                      JSON.stringify reqJson;
                      "## Recieved response ...";
                      JSON.stringify (respJson st)])]
  end.

Definition plainRequest : Run :=
  match requestLoop 2 {| respJson := JNull; respErr := None;
                         warned := []; tries := 0 |} with
  | Done v calls st =>
      {| result := Return v; listener := calls;
         console := warned st; fetches := tries st |}
  | Exhausted st =>
      {| result := Throw (ErrorObj MISSING); listener := [];
         console := warned st ++ [report st]; fetches := tries st |}
  end.
End Plain.

(** *** Streaming requests, lines 170-282 *)

(** What [await reader.read()] delivers: a chunk record, or a rejection. *)
Inductive ReadResult : Type :=
| Read (value : option string) (done : bool)
| ReadFail (e : thrown).

(** The variables of the decoder.  [events] is a ghost field: the data
    events taken off the buffer so far, oldest first. *)
Record StreamSt : Type := {
  rawBuffer : string;
  parsedRes : string;
  emitted : list json;
  log : list warning;
  events : list string
}.

Inductive step : Type :=
| Next (st : StreamSt)
| Halt (e : thrown) (st : StreamSt).

Definition UNEXPECTED_FORMAT : string :=
  "Unexpected data event format, see warning logs".
Definition UNEXPECTED_END : string :=
  "Unexpected end of stream, with unprocessed data, see warning logs for more details".
Definition PROCESSING_ERROR : string :=
  "Unexpected event processing error, see warning logs for more details".

Definition setBuffer (b : string) (st : StreamSt) : StreamSt :=
  {| rawBuffer := b; parsedRes := parsedRes st; emitted := emitted st;
     log := log st; events := events st |}.

Definition warn (w : warning) (st : StreamSt) : StreamSt :=
  {| rawBuffer := rawBuffer st; parsedRes := parsedRes st; emitted := emitted st;
     log := log st ++ [w]; events := events st |}.

(** Lines 248-252: append the token and hand it to the listener. *)
Definition emit (strToken : json) (st : StreamSt) : StreamSt :=
  {| rawBuffer := rawBuffer st;
     parsedRes := parsedRes st +:+ toString strToken;
     emitted := emitted st ++ [strToken];
     log := log st; events := events st |}.

(** Lines 243-246. *)
Definition tokenOf (dataObj : json) : thrown + json :=
  let* choices := prop (Some dataObj) "choices" in
  let* c0 := and_then choices (first choices) in
  if truthy c0 then
    match or_else (or_else (optprop (optprop c0 "delta") "content")
                           (optprop c0 "text"))
                  (Some (JStr "")) with
    | Some tok => inr tok
    | None => inr (JStr "")
    end
  else inr (JStr "").

(** [value == null] for what a read delivers. *)
Definition isNone (value : option string) : bool :=
  match value with
  | None => true
  | Some _ => false
  end.

(** Lines 211-213. *)
Fixpoint stripNL (s : string) : string :=
  match s with
  | String c s' => if Ascii.eqb c (ascii_of_nat 10) then stripNL s' else s
  | EmptyString => EmptyString
  end.

Section Streaming.
Variable parse : string -> option json.

(** Lines 226-258: one data event. *)
Definition handleEvent (dataEvent : string) (st : StreamSt) : step :=
  if startsWith dataEvent "error:" then
    Halt (Str ("Unexpected stream request error: " +:+ slice dataEvent 6)) st
  else if startsWith dataEvent "data: [DONE]" then Next st
  else if startsWith dataEvent "data: {" then
    let dataJson := trim (slice dataEvent 6) in
    match parse dataJson with
    | None => Halt SyntaxError st
    | Some dataObj =>
        match tokenOf dataObj with
        | inl e => Halt e st
        | inr strToken => Next (emit strToken st)
        end
    end
  else
    Halt (Str UNEXPECTED_FORMAT)
         (warn [LStr "Unexpected data event format"; LStr dataEvent] st).

(** Lines 219-224: take the next data event off the buffer. *)
Definition dequeue (st : StreamSt) : option (string * StreamSt) :=
  match indexOf (rawBuffer st) NLNL with
  | Some (S p) =>
      let doubleNL_pos := S p in
      let dataEvent := trim (slice0 (rawBuffer st) doubleNL_pos) in
      Some (dataEvent,
            {| rawBuffer := slice (rawBuffer st) (doubleNL_pos + 2);
               parsedRes := parsedRes st; emitted := emitted st;
               log := log st; events := events st ++ [dataEvent] |})
  | _ => None
  end.

(** Lines 219-259: [while ((doubleNL_pos = rawBuffer.indexOf(...)) > 0)],
    unrolled at most [fuel] times. *)
Fixpoint processEvents (fuel : nat) (st : StreamSt) : step :=
  match dequeue st with
  | None => Next st
  | Some (dataEvent, st1) =>
      match fuel with
      | O => Next st
      | S fuel' =>
          match handleEvent dataEvent st1 with
          | Halt e st2 => Halt e st2
          | Next st2 => processEvents fuel' st2
          end
      end
  end.

(** The inner loop: every pass shortens the buffer, so its length is
    fuel enough (lemma [drain_unfold]). *)
Definition drain (st : StreamSt) : step :=
  processEvents (String.length (rawBuffer st)) st.

(** Lines 205-259: one pass of the outer loop after [reader.read()]. *)
Definition onRead (value : option string) (st : StreamSt) : step :=
  let buf := match value with
             | Some chunk => rawBuffer st +:+ chunk
             | None => rawBuffer st
             end in
  drain (setBuffer (stripNL buf) st).

(** Lines 200-265: [while (true)] over the reads the source delivers.
    A source that has delivered everything answers
    [{ value: undefined, done: true }]. *)
Fixpoint readLoop (reads : list ReadResult) (st : StreamSt) : step :=
  match reads with
  | [] => onRead None st
  | ReadFail e :: _ => Halt e st
  | Read value done :: rest =>
      match onRead value st with
      | Halt e st1 => Halt e st1
      | Next st1 =>
          if isNone value || done then Next st1
          else readLoop rest st1
      end
  end.

(** Lines 267-275. *)
Definition finish (st : StreamSt) : step :=
  let trimRawBuffer := trim (rawBuffer st) in
  if (0 <? String.length trimRawBuffer)%nat then
    Halt (Str UNEXPECTED_END)
         (warn [LStr "Unexpected end of stream, with unprocessed data";
                LStr trimRawBuffer] st)
  else Next st.

(** Lines 184-275: the body of the [try] block. *)
Definition decode (reads : list ReadResult) : step :=
  match readLoop reads {| rawBuffer := ""; parsedRes := ""; emitted := [];
                          log := []; events := [] |} with
  | Halt e st => Halt e st
  | Next st => finish st
  end.

(** Lines 174-282.  The [fetch] stands outside the [try]: its rejection
    reaches the caller as it is; everything thrown inside is logged and
    replaced. *)
Definition streamRequest (resp : thrown + list ReadResult) : Run :=
  match resp with
  | inl e => {| result := Throw e; listener := []; console := []; fetches := 1 |}
  | inr reads =>
      match decode reads with
      | Next st =>
          {| result := Return (JStr (parsedRes st)); listener := emitted st;
             console := log st; fetches := 1 |}
      | Halt e st =>
          {| result := Throw (Str PROCESSING_ERROR); listener := emitted st;
             console := log st ++ [[LStr "Unexpected event processing error";
                                    LThrown e]];
             fetches := 1 |}
      end
  end.

(** The data events a decode run took off the buffer. *)
Definition decodedEvents (reads : list ReadResult) : list string :=
  match decode reads with
  | Next st => events st
  | Halt _ st => events st
  end.

End Streaming.

(** [if (reqJson.stream != true) { ... } else { ... }] *)
Definition getChatCompletion (parse : string -> option json)
    (reqJson : json) (useRawApi : bool) (stream : bool)
    (fetch : nat -> FetchResult) (resp : thrown + list ReadResult) : Run :=
  if stream then streamRequest parse resp
  else plainRequest reqJson useRawApi fetch.

(** *** Vocabulary of the properties *)

(** The terminal states of the decoder. *)
Inductive StreamState : Type := DONE | ERROR.

Definition terminal (r : Run) : StreamState :=
  match result r with
  | Return _ => DONE
  | Throw _ => ERROR
  end.

(** How one pass of the loop ends, from what [fetch] delivered. *)
Definition attemptOf (useRawApi : bool) (r : FetchResult) : attempt :=
  match r with
  | FetchFail e => Raised e []
  | FetchBody j => tryBody useRawApi j
  end.

(** [respJson] after a pass that was caught. *)
Definition bodyAfter (r : FetchResult) (before : json) : json :=
  match r with
  | FetchFail _ => before
  | FetchBody j => j
  end.

(** [respJson.error] is truthy: the body encodes an error. *)
Definition encodesError (respJson : json) : bool :=
  truthy (optprop (Some respJson) "error").

Definition errorText (respJson : json) : string :=
  "[" +:+ toStringV (optprop (optprop (Some respJson) "error") "type") +:+ "] "
      +:+ toStringV (optprop (Some respJson) "message").

(** The text of the last warning on the console, when it is one string. *)
Definition lastReport (r : Run) : string :=
  match last (console r) with
  | Some [LStr text] => text
  | _ => ""
  end.

Definition mentions (text d : string) : bool :=
  match indexOf text d with
  | Some _ => true
  | None => false
  end.

(** The raised error mentions [d]. *)
Definition carries (e : thrown) (d : string) : bool :=
  mentions (thrownToString e) d.

Definition ok_body : json :=
  JObj [("choices",
         JArr [JObj [("message",
                      JObj [("role", JStr "assistant");
                            ("content", JStr "Hello")])]])].

Definition error_body : json :=
  JObj [("error", JObj [("type", JStr "invalid_request_error");
                        ("message", JStr "bad request")])].

Definition request : json := JObj [("model", JStr "gpt-3.5-turbo-1106")].

(** The network of the examples: what the first and the second [fetch]
    deliver. *)
Definition net (r0 r1 : FetchResult) (tries : nat) : FetchResult :=
  match tries with
  | O => r0
  | _ => r1
  end.

Definition isError (dataEvent : string) : bool := startsWith dataEvent "error:".

Definition initial : StreamSt :=
  {| rawBuffer := ""; parsedRes := ""; emitted := []; log := []; events := [] |}.

(** No data event taken so far carried the error prefix. *)
Definition clean (st : StreamSt) : Prop :=
  Forall (fun ev => isError ev = false) (events st).

(** The decoder stopped with [e]: either no event carried the error
    prefix, or the last one did and [e] quotes what follows the prefix. *)
Definition stopped (e : thrown) (st : StreamSt) : Prop :=
  clean st \/
  exists evs ev,
    events st = evs ++ [ev] /\
    Forall (fun ev' => isError ev' = false) evs /\
    isError ev = true /\
    e = Str ("Unexpected stream request error: " +:+ slice ev 6).

Definition holds (s : step) : Prop :=
  match s with
  | Next st => clean st
  | Halt e st => stopped e st
  end.

Definition errorDetail (dataEvent : string) : thrown :=
  Str ("Unexpected stream request error: " +:+ slice dataEvent 6).

(** The payload of a chat delta and the stream of the design document. *)
Definition delta (content : string) : string :=
  "data: {" +:+ JSON.DQ +:+ "choices" +:+ JSON.DQ +:+ ":[{" +:+ JSON.DQ +:+ "delta"
    +:+ JSON.DQ +:+ ":{" +:+ JSON.DQ +:+ "content" +:+ JSON.DQ +:+ ":"
    +:+ JSON.DQ +:+ content +:+ JSON.DQ +:+ "}}]}".

Definition hi_stream : string :=
  delta "Hi" +:+ NLNL +:+ "data: [DONE]" +:+ NLNL.

End OpenAI.

(** ** The cache index of a prompt *)

Module StableStringify.
Import JSString JS.

(** The order [Array.prototype.sort] puts keys in: by code unit. *)
Definition key_le (a b : string) : Prop := String.leb a b = true.

#[global] Instance key_le_dec (a b : string) : Decision (key_le a b).
Proof. unfold key_le. apply _. Defined.

(** [Object.keys(node).sort()] *)
Definition sortedKeys {A : Type} (fs : list (string * A)) : list string :=
  merge_sort key_le (List.map fst fs).

(** Modelled from the spec: [jsonStringify] is the package
    [fast-json-stable-stringify], which [AiBridge.js] requires and which
    is not among the sources.  It is the "canonical, key-order-independent
    encoding" of the design document: [JSON.stringify], except that the
    fields of every object are written in the order of their sorted keys,
    each key with the value the object holds for it. *)
Fixpoint jsonStringify (node : json) : string :=
  match node with
  | JNull => "null"
  | JBool true => "true"
  | JBool false => "false"
  | JNum z => pretty z
  | JStr s => JSON.quote s
  | JArr l => "[" +:+ join "," (List.map jsonStringify l) +:+ "]"
  | JObj fs =>
      let values := List.map (fun kv => (fst kv, jsonStringify (snd kv))) fs in
      "{" +:+ join ","
                (List.map (fun key => JSON.quote key +:+ ":"
                                        +:+ default "" (assoc key values))
                          (sortedKeys fs))
          +:+ "}"
  end.

(** Two payloads with the same content: equal scalars, arrays equal
    element by element, objects with the same keys (each once) holding
    the same content under each key, in whatever order the fields were
    inserted. *)
Local Unset Elimination Schemes.

Inductive same : json -> json -> Prop :=
| same_null : same JNull JNull
| same_bool b : same (JBool b) (JBool b)
| same_num z : same (JNum z) (JNum z)
| same_str s : same (JStr s) (JStr s)
| same_arr l1 l2 : Forall2 same l1 l2 -> same (JArr l1) (JArr l2)
| same_obj fs1 fs2 :
    NoDup (List.map fst fs1) ->
    NoDup (List.map fst fs2) ->
    (forall key, option_Forall2 same (assoc key fs1) (assoc key fs2)) ->
    same (JObj fs1) (JObj fs2).

Local Set Elimination Schemes.

End StableStringify.

(** ** The MongoDB cache backend *)

Module MongoDBCache.
Import JSString JS.

(** A stored record, and a collection in its natural order. *)
Definition document : Type := list (string * json).
Definition collection : Type := list document.

(** The database: collections by name. *)
Definition database : Type := gmap string collection.

(** What [LayerCache] hands to a backend. *)
Record CacheObj : Type := {
  hash : string;
  tempKey : Z;
  prompt : string;
  cleanOpt : json;
  model : string   (* cacheObj.promptOpt.model *)
}.

Definition getCacheCollectionName (type : string) (cacheObj : CacheObj) : string :=
  type +:+ "_" +:+ model cacheObj.

(** A record matches a filter when it holds an equal value under every
    field of the filter. *)
Definition matches (filter : document) (record : document) : bool :=
  forallb (fun kv => match assoc (fst kv) record with
                     | Some v => json_eqb v (snd kv)
                     | None => false
                     end) filter.

(** [collection.findOne(filter)] *)
Definition findOne (filter : document) (c : collection) : option document :=
  List.find (matches filter) c.

(** [$set] on one record. *)
Definition setFields (updates : document) (record : document) : document :=
  fold_left (fun r kv => JSON.set_field (fst kv) (snd kv) r) updates record.

(** [collection.updateOne(filter, { $set: updates }, { upsert: true })]:
    the first record that matches is updated; when none does, a record
    made of the filter and the updates is inserted. *)
Fixpoint updateOne (filter updates : document) (c : collection) : collection :=
  match c with
  | [] => [setFields updates filter]
  | record :: c' =>
      if matches filter record then setFields updates record :: c'
      else record :: updateOne filter updates c'
  end.

Definition collectionOf (db : database) (name : string) : collection :=
  default [] (db !! name).

(** Lines 118-136. *)
Definition getCacheEmbedding (db : database) (cacheObj : CacheObj) : value :=
  let collectionName := getCacheCollectionName "embedding" cacheObj in
  match findOne [("prompt", JStr (prompt cacheObj))] (collectionOf db collectionName) with
  | Some record => assoc "embedding" record
  | None => Some JNull
  end.

(** Lines 141-166. *)
Definition addCacheEmbedding (db : database) (cacheObj : CacheObj) (embedding : json) :
    database :=
  let collectionName := getCacheCollectionName "embedding" cacheObj in
  <[ collectionName :=
       updateOne [("prompt", JStr (prompt cacheObj)); ("opt", cleanOpt cacheObj)]
                 [("embedding", embedding)]
                 (collectionOf db collectionName) ]> db.

(** Lines 53-81. *)
Definition getCacheCompletion (db : database) (cacheObj : CacheObj) : value :=
  let collectionName := getCacheCollectionName "completion" cacheObj in
  match findOne [("hash", JStr (hash cacheObj)); ("tempKey", JNum (tempKey cacheObj));
                 ("prompt", JStr (prompt cacheObj)); ("opt", cleanOpt cacheObj)]
                (collectionOf db collectionName) with
  | Some record => assoc "completion" record
  | None => Some JNull
  end.

(** Lines 86-113. *)
Definition addCacheCompletion (db : database) (cacheObj : CacheObj) (completion : json) :
    database :=
  let collectionName := getCacheCollectionName "completion" cacheObj in
  <[ collectionName :=
       updateOne [("hash", JStr (hash cacheObj)); ("tempKey", JNum (tempKey cacheObj));
                  ("prompt", JStr (prompt cacheObj)); ("opt", cleanOpt cacheObj)]
                 [("completion", completion)]
                 (collectionOf db collectionName) ]> db.

(** *** Vocabulary of the properties *)

(** Two embedding requests for the same prompt and model, with options
    that differ. *)
Definition request_small : CacheObj :=
  {| hash := "h"; tempKey := 0; prompt := "hello";
     cleanOpt := JObj [("model", JStr "text-embedding-ada-002"); ("dimensions", JNum 256)];
     model := "text-embedding-ada-002" |}.

Definition request_large : CacheObj :=
  {| hash := "h"; tempKey := 0; prompt := "hello";
     cleanOpt := JObj [("model", JStr "text-embedding-ada-002"); ("dimensions", JNum 1024)];
     model := "text-embedding-ada-002" |}.

Definition vector_small : json := JArr [JNum 1; JNum 2].
Definition vector_large : json := JArr [JNum 3; JNum 4; JNum 5].

End MongoDBCache.

(** ** [src/AiBridge.js] *)

Module AiBridge.
Import JSString JS StableStringify.

Local Open Scope Q_scope.

(** [opt.max_tokens]: ["auto"] or [null], a number, or the [NaN] that
    the arithmetic of [normalizeCompletionOptObject] can leave. *)
Inductive MaxTokens : Type :=
| Auto
| Tokens (n : Z)
| NotANumber.

(** A JavaScript number: [NaN], a finite number taken exactly, or an
    infinity. *)
Inductive number : Type :=
| NaN
| Finite (q : Q)
| Infinite (positive : bool).

(** What [opt.temperature] and [config.temperatureKeyMultiplier] hold:
    [null] or [undefined], or a number. *)
Inductive setting : Type :=
| Missing
| Number (n : number).

(** The value of [tempKey] when the cache is asked: an integer, [NaN]
    or an infinity. *)
Inductive Key : Type :=
| KeyInt (k : Z)
| KeyNaN
| KeyInfinite (positive : bool).

(** [parseFloat(v)]: [null] and [undefined] read as ["null"] and
    ["undefined"], which start no number; a number is read back from its
    own decimal. *)
Definition parseFloat (v : setting) : number :=
  match v with
  | Missing => NaN
  | Number n => n
  end.

(** [v == 0] *)
Definition looseEqZero (v : setting) : bool :=
  match v with
  | Number (Finite q) => Qeq_bool q 0
  | _ => false
  end.

(** [a * b] *)
Definition times (a b : number) : number :=
  match a, b with
  | NaN, _ | _, NaN => NaN
  | Finite x, Finite y => Finite (x * y)
  | Finite x, Infinite p | Infinite p, Finite x =>
      if Qeq_bool x 0 then NaN
      else Infinite (if Qle_bool 0 x then p else negb p)
  | Infinite p, Infinite q => Infinite (Bool.eqb p q)
  end.

(** [Math.floor(n) <= 0]: a comparison with [NaN] is false. *)
Definition floorLeZero (n : number) : bool :=
  match n with
  | NaN => false
  | Finite q => (Qfloor q <=? 0)%Z
  | Infinite positive => negb positive
  end.

(** [Math.floor(n)] *)
Definition floor (n : number) : Key :=
  match n with
  | NaN => KeyNaN
  | Finite q => KeyInt (Qfloor q)
  | Infinite positive => KeyInfinite positive
  end.

(** The options the bridge reads, and the rest of the object. *)
Record Options : Type := {
  model : option string;
  max_tokens : MaxTokens;
  total_tokens : option Z;
  temperature : setting;
  rest : list (string * json)
}.

(** [promptOpts]: the fields the caller sets. *)
Record PromptOpts : Type := {
  set_model : option (option string);
  set_max_tokens : option MaxTokens;
  set_total_tokens : option (option Z);
  set_temperature : option setting;
  set_rest : list (string * json)
}.

(** [Object.assign({}, defaults, promptOpts)] *)
Definition assign (defaults : Options) (promptOpts : PromptOpts) : Options :=
  {| model := default (model defaults) (set_model promptOpts);
     max_tokens := default (max_tokens defaults) (set_max_tokens promptOpts);
     total_tokens := default (total_tokens defaults) (set_total_tokens promptOpts);
     temperature := default (temperature defaults) (set_temperature promptOpts);
     rest := fold_left (fun r kv => JSON.set_field (fst kv) (snd kv) r)
                       (set_rest promptOpts) (rest defaults) |}.

(** [this.config], after the merge with the default configuration. *)
Record Config : Type := {
  provider_openai : value;
  provider_anthropic : value;
  default_chat : Options;
  temperatureKeyMultiplier : setting;
  providerLatencyAdd : Z
}.

Record Bridge : Type := {
  config : Config;
  _openai_key : value;
  _anthropic_key : value
}.

(** [v == ""] *)
Definition looseEqEmpty (v : value) : bool :=
  match v with
  | None | Some JNull => false
  | Some (JStr s) => String.eqb s ""
  | Some (JNum z) => (z =? 0)%Z
  | Some (JBool b) => negb b
  | Some (JArr l) => String.eqb (toString (JArr l)) ""
  | Some (JObj _) => false
  end.

(** Lines 65-71: "Null out empty strings". *)
Definition nullOut (key : value) : value :=
  if nullish key || looseEqEmpty key then Some JNull else key.

(** Lines 52-80, from the merged configuration on.  The layer cache and
    the promise queue are built by their own constructors. *)
Definition constructor (cfg : Config) : thrown + Bridge :=
  let openai_key := provider_openai cfg in
  let anthropic_key := provider_anthropic cfg in
  let anthropic_key := nullOut anthropic_key in
  let openai_key := nullOut openai_key in
  if nullish anthropic_key && nullish openai_key then
    inl (Str "No provider keys provided")
  else
    inr {| config := cfg; _openai_key := openai_key; _anthropic_key := anthropic_key |}.

(** Lines 136-143. *)
Definition normalizeMessages (messages : json) : thrown + json :=
  match messages with
  | JStr s => inr (JArr [JObj [("role", JStr "user"); ("content", JStr s)]])
  | JArr _ => inr messages
  | _ =>
      match prop (Some messages) "role" with
      | inl e => inl e
      | inr role =>
          if negb (nullish role) then
            match prop (Some messages) "content" with
            | inl e => inl e
            | inr content =>
                if negb (nullish content) then inr (JArr [messages])
                else inr messages
            end
          else inr messages
      end
  end.

(** [messagesArr.length], [None] when it is not a number. *)
Definition lengthOf (messagesArr : json) : option Z :=
  match messagesArr with
  | JArr l => Some (Z.of_nat (List.length l))
  | JStr s => Some (Z.of_nat (String.length s))
  | JObj fs => match assoc "length" fs with
               | Some (JNum z) => Some z
               | _ => None
               end
  | _ => None
  end.

(** Lines 283-334.  The function is called without a receiver, so its
    [this._anthropic_key] is not the bridge's key: it is [undefined] and
    the default model is the OpenAI one. *)
Definition normalizeCompletionOptObject
    (opt : Options) (promptTokenCount : Z) (messagesArr : json) : thrown + Options :=
  let model0 :=
    match model opt with
    | None => "gpt-3.5-turbo-1106"
    | Some m => if String.eqb m "" then "gpt-3.5-turbo-1106" else m
    end in
  let model1 :=
    if String.eqb model0 "gpt-4e" then
      if (promptTokenCount <? 14000)%Z then "gpt-3.5-turbo-1106"
      else "gpt-4-1106-preview"
    else model0 in
  match max_tokens opt with
  | Auto =>
      let autoTotalTokens :=
        if startsWith model1 "gpt-4" then 128000%Z
        else if startsWith model1 "claude" && endsWith model1 "100k" then 90000%Z
        else 16835%Z in
      let totalTokens :=
        match total_tokens opt with
        | Some t => if (t =? 0)%Z then autoTotalTokens else t
        | None => autoTotalTokens
        end in
      match (if nullish (Some messagesArr) then Some 0%Z else lengthOf messagesArr) with
      | Some len =>
          let tokenLength := (promptTokenCount + len * 2)%Z in
          let maxTokens := (totalTokens - tokenLength)%Z in
          if (maxTokens <=? 50)%Z then
            inl (Str ("Prompt is larger or nearly equal to total token count ("
                        +:+ pretty tokenLength +:+ "/" +:+ pretty totalTokens +:+ ")"))
          else
            inr {| model := Some model1; max_tokens := Tokens maxTokens;
                   total_tokens := total_tokens opt; temperature := temperature opt;
                   rest := rest opt |}
      | None =>
          inr {| model := Some model1; max_tokens := NotANumber;
                 total_tokens := total_tokens opt; temperature := temperature opt;
                 rest := rest opt |}
      end
  | _ =>
      inr {| model := Some model1; max_tokens := max_tokens opt;
             total_tokens := total_tokens opt; temperature := temperature opt;
             rest := rest opt |}
  end.

(** Lines 159-171: the partition key.  [random] is what [Math.random()]
    answers; the products of finite numbers are exact. *)
Definition generateTempKey (tempKey : Z) (temperature multiplier : setting)
    (random : Q) : Key :=
  if (tempKey <? 0)%Z then
    let tempKey := if looseEqZero temperature then 0%Z else tempKey in
    let tempRange := times (parseFloat temperature) (parseFloat multiplier) in
    if floorLeZero tempRange then KeyInt 0
    else floor (times (Finite random) tempRange)
  else KeyInt tempKey.

Inductive Provider : Type := OpenAI | Anthropic.

(** What a provider call leaves behind: its result and the calls of the
    listener it made. *)
Record ProviderRun : Type := {
  answer : thrown + json;
  streamed : list json
}.

(** The object [getChatCompletion] returns. *)
Record Completion : Type := {
  c_model : string;
  completion : json;
  token_prompt : Z;
  token_completion : Z;
  token_cache : bool
}.

(** What is settled before the cache is asked, lines 135-171. *)
Record Prepared : Type := {
  p_messages : json;
  p_prompt : string;
  p_promptTokenCount : Z;
  p_opt : Options;
  p_model : string;
  p_tempKey : Key
}.

Section GetChatCompletion.
(** The layer cache, the tokenizer, the providers and the random
    source, as the bridge uses them. *)
Variable Cache : Type.
Variable getCacheChatCompletion :
  Cache -> string -> Options -> json -> string -> Key -> value * Cache.
Variable addCacheChatCompletion :
  Cache -> string -> json -> Options -> json -> string -> Key -> Cache.
Variable getTokenCount : json -> Z.
Variable callProvider : Provider -> value -> Options -> json -> ProviderRun.
Variable random : Q.

Definition prepare (self : Bridge) (messages : json) (promptOpts : PromptOpts)
    (tempKey : Z) : thrown + Prepared :=
  match normalizeMessages messages with
  | inl e => inl e
  | inr messages =>
      let opt := assign (default_chat (config self)) promptOpts in
      let prompt := jsonStringify messages in
      let promptTokenCount := getTokenCount (JStr prompt) in
      match normalizeCompletionOptObject opt promptTokenCount messages with
      | inl e => inl e
      | inr opt =>
          let model := default "" (model opt) in
          inr {| p_messages := messages; p_prompt := prompt;
                 p_promptTokenCount := promptTokenCount; p_opt := opt;
                 p_model := model;
                 p_tempKey := generateTempKey tempKey (temperature opt)
                                (temperatureKeyMultiplier (config self)) random |}
      end
  end.

Record Call : Type := {
  returned : thrown + Completion;
  listened : list json;
  cache : Cache
}.

(** Lines 189-202: the task handed to the promise queue. *)
Definition dispatch (self : Bridge) (p : Prepared) : ProviderRun :=
  if startsWith (p_model p) "claude-" then
    callProvider Anthropic (_anthropic_key self) (p_opt p) (p_messages p)
  else
    callProvider OpenAI (_openai_key self) (p_opt p) (p_messages p).

(** Lines 126-217.  The promise queue runs the provider call; pacing
    and admission do not change what it returns. *)
Definition getChatCompletion (self : Bridge) (c : Cache) (messages : json)
    (promptOpts : PromptOpts) (cacheGrp : string) (tempKey : Z) : Call :=
  match prepare self messages promptOpts tempKey with
  | inl e => {| returned := inl e; listened := []; cache := c |}
  | inr p =>
      let (cacheRes, c1) :=
        getCacheChatCompletion c (p_prompt p) (p_opt p) (p_messages p)
                               cacheGrp (p_tempKey p) in
      match cacheRes with
      | Some (JNull) | None =>
          let run := dispatch self p in
          match answer run with
          | inl e => {| returned := inl e; listened := streamed run; cache := c1 |}
          | inr completionRes =>
              {| returned :=
                   inr {| c_model := p_model p; completion := completionRes;
                          token_prompt := p_promptTokenCount p;
                          token_completion := getTokenCount completionRes;
                          token_cache := false |};
                 listened := streamed run;
                 cache := addCacheChatCompletion c1 (p_prompt p) completionRes
                            (p_opt p) (p_messages p) cacheGrp (p_tempKey p) |}
          end
      | Some cached =>
          {| returned :=
               inr {| c_model := p_model p; completion := cached;
                      token_prompt := p_promptTokenCount p;
                      token_completion := getTokenCount cached;
                      token_cache := true |};
             listened := [cached];
             cache := c1 |}
      end
  end.

End GetChatCompletion.

(** *** Vocabulary of the properties *)

(** A provider key that is absent: [undefined], [null] or [""]. *)
Definition blank (key : value) : bool :=
  match key with
  | None | Some JNull => true
  | Some (JStr s) => String.eqb s ""
  | _ => false
  end.

Definition withKeys (cfg : Config) (openai anthropic : value) : Config :=
  {| provider_openai := openai; provider_anthropic := anthropic;
     default_chat := default_chat cfg;
     temperatureKeyMultiplier := temperatureKeyMultiplier cfg;
     providerLatencyAdd := providerLatencyAdd cfg |}.

(** The construction's result, the configuration kept as given apart. *)
Definition keysOf (r : thrown + Bridge) : thrown + (value * value) :=
  match r with
  | inl e => inl e
  | inr b => inr (_openai_key b, _anthropic_key b)
  end.

Definition sampleConfig : Config :=
  {| provider_openai := Some (JStr ""); provider_anthropic := Some JNull;
     default_chat := {| model := None; max_tokens := Auto; total_tokens := None;
                        temperature := Number (Finite 0); rest := [] |};
     temperatureKeyMultiplier := Number (Finite 10); providerLatencyAdd := 0 |}.

(** Lines 136-150: the string the cache is indexed by. *)
Definition promptOf (messages : json) : thrown + string :=
  match normalizeMessages messages with
  | inl e => inl e
  | inr messages => inr (jsonStringify messages)
  end.

(** A bridge with an OpenAI key, a cache that is a list of prompts with
    their completions, and a provider that answers at once. *)
Definition sampleBridge : Bridge :=
  {| config := withKeys sampleConfig (Some (JStr "sk-test")) (Some JNull);
     _openai_key := Some (JStr "sk-test"); _anthropic_key := Some JNull |}.

Definition sampleCache : Type := list (string * json).

Definition sampleGet (c : sampleCache) (prompt : string) (opt : Options)
    (messages : json) (cacheGrp : string) (tempKey : Key) : value * sampleCache :=
  (assoc prompt c, c).

Definition sampleAdd (c : sampleCache) (prompt : string) (completion : json)
    (opt : Options) (messages : json) (cacheGrp : string) (tempKey : Key) : sampleCache :=
  JSON.set_field prompt completion c.

Definition sampleTokens (text : json) : Z := 3.

Definition sampleProvider (p : Provider) (key : value) (opt : Options)
    (messages : json) : ProviderRun :=
  {| answer := inr (JStr "fresh"); streamed := [JStr "fresh"] |}.

Definition sampleStore : sampleCache :=
  [(jsonStringify (JArr [JObj [("role", JStr "user"); ("content", JStr "hi")]]),
    JStr "cached")].

Definition noOpts : PromptOpts :=
  {| set_model := None; set_max_tokens := None; set_total_tokens := None;
     set_temperature := None; set_rest := [] |}.

(** [{ temperature: null }] *)
Definition nullTemperature : PromptOpts :=
  {| set_model := None; set_max_tokens := None; set_total_tokens := None;
     set_temperature := Some Missing; set_rest := [] |}.

(** [getChatCompletion("hi")] on the sample bridge, over a given store. *)
Definition sampleCall (store : sampleCache) : Call sampleCache :=
  getChatCompletion sampleCache sampleGet sampleAdd sampleTokens sampleProvider
    (1 # 2) sampleBridge store (JStr "hi") noOpts "default" (-1).

(** What [sampleCall] has settled when it asks the cache. *)
Definition samplePrepared : Prepared :=
  {| p_messages := JArr [JObj [("role", JStr "user"); ("content", JStr "hi")]];
     p_prompt := jsonStringify (JArr [JObj [("role", JStr "user"); ("content", JStr "hi")]]);
     p_promptTokenCount := 3;
     p_opt := {| model := Some "gpt-3.5-turbo-1106"; max_tokens := Tokens 16830;
                 total_tokens := None; temperature := Number (Finite 0);
                 rest := [] |};
     p_model := "gpt-3.5-turbo-1106";
     p_tempKey := KeyInt 0 |}.

(** [getChatCompletion(messages)] and the same with the fields of the
    message written the other way round. *)
Definition messages_rc : json :=
  JArr [JObj [("role", JStr "user"); ("content", JStr "hi")]].
Definition messages_cr : json :=
  JArr [JObj [("content", JStr "hi"); ("role", JStr "user")]].

End AiBridge.

(** ** Keys of the stored records *)

Module MongoDBKeys.
Import JSString JS MongoDBCache.

(** The filter [getCacheCompletion] and [addCacheCompletion] address a
    record by. *)
Definition completionKey (cacheObj : CacheObj) : document :=
  [("hash", JStr (hash cacheObj)); ("tempKey", JNum (tempKey cacheObj));
   ("prompt", JStr (prompt cacheObj)); ("opt", cleanOpt cacheObj)].

(** The filter of [addCacheEmbedding], and the one of [getCacheEmbedding]. *)
Definition embeddingKey (cacheObj : CacheObj) : document :=
  [("prompt", JStr (prompt cacheObj)); ("opt", cleanOpt cacheObj)].

Definition promptKey (cacheObj : CacheObj) : document :=
  [("prompt", JStr (prompt cacheObj))].

(** Two completion requests that differ in the model or in a field of the
    key. *)
Definition differ (a b : CacheObj) : Prop :=
  model a <> model b \/ hash a <> hash b \/ tempKey a <> tempKey b \/
  prompt a <> prompt b \/ cleanOpt a <> cleanOpt b.

(** The records kept for completions of the model of [cacheObj]. *)
Definition completions (db : database) (cacheObj : CacheObj) : collection :=
  collectionOf db (getCacheCollectionName "completion" cacheObj).

Definition embeddings (db : database) (cacheObj : CacheObj) : collection :=
  collectionOf db (getCacheCollectionName "embedding" cacheObj).

Definition request_other_key : CacheObj :=
  {| hash := "h"; tempKey := 3; prompt := "hello";
     cleanOpt := JObj [("model", JStr "text-embedding-ada-002"); ("dimensions", JNum 256)];
     model := "text-embedding-ada-002" |}.

End MongoDBKeys.

(** ** Vocabulary of the decoder's laws *)

Module StreamVocabulary.
Import JSString JS OpenAI.

Definition isSentinel (dataEvent : string) : bool :=
  startsWith dataEvent "data: [DONE]".

Definition isJson (dataEvent : string) : bool :=
  startsWith dataEvent "data: {".

(** A data event the decoder goes on after: not an error, and the
    sentinel or a JSON block. *)
Definition accepted (dataEvent : string) : Prop :=
  isError dataEvent = false /\ (isSentinel dataEvent || isJson dataEvent) = true.

(** The events that carry a token. *)
Definition tokenEvents (evs : list string) : list string :=
  List.filter (fun ev => negb (isSentinel ev)) evs.

(** [deltas.join("")] of the texts of the tokens. *)
Definition textOf (deltas : list json) : string :=
  join "" (List.map toString deltas).

(** What holds of the decoder's variables as long as nothing was thrown. *)
Definition coherent (st : StreamSt) : Prop :=
  parsedRes st = textOf (emitted st) /\
  log st = [] /\
  Forall accepted (events st) /\
  List.length (emitted st) = List.length (tokenEvents (events st)).

End StreamVocabulary.

(** ** Vocabulary of the bridge's laws *)

Module AiBridgeVocabulary.
Import JSString JS AiBridge.

Local Open Scope Q_scope.

(** A layer cache that serves what was added last under a key. *)
Definition lawful {Cache : Type}
    (get : Cache -> string -> Options -> json -> string -> Key -> value * Cache)
    (add : Cache -> string -> json -> Options -> json -> string -> Key -> Cache) : Prop :=
  forall c prompt completion opt messages cacheGrp tempKey,
    fst (get (add c prompt completion opt messages cacheGrp tempKey)
             prompt opt messages cacheGrp tempKey) = Some completion.

(** The partition key does not depend on the random source: the caller
    gave one, or the request is sent at temperature 0. *)
Definition keyed (self : Bridge) (promptOpts : PromptOpts) (tempKey : Z) : Prop :=
  (0 <= tempKey)%Z \/
  exists t, temperature (assign (default_chat (config self)) promptOpts)
            = Number (Finite t) /\ t == 0.

Definition keyedConfig : Config :=
  withKeys sampleConfig (Some (JStr "sk-test")) (Some (JStr "")).

(** A provider that has nothing to say. *)
Definition silentProvider (p : Provider) (key : value) (opt : Options)
    (messages : json) : ProviderRun :=
  {| answer := inr JNull; streamed := [] |}.

Definition gpt4e : Options :=
  {| model := Some "gpt-4e"; max_tokens := Auto; total_tokens := None;
     temperature := Number (Finite 0); rest := [] |}.

End AiBridgeVocabulary.

(** ** [src/openai/getChatCompletion.js], lines 45-65: the request as given *)

Module OpenAIRequest.
Import JSString JS.

(** Lines 50-58: a string is one user message, an array is the messages. *)
Definition shape (inConfig : json) : json :=
  match inConfig with
  | JStr s =>
      JObj [("messages", JArr [JObj [("role", JStr "user"); ("content", JStr s)]])]
  | JArr _ => JObj [("messages", inConfig)]
  | _ => inConfig
  end.

Definition contentIsNull (messages : json) : thrown :=
  Str ("Message content is null: " +:+ JSON.stringify messages).

(** Lines 61-65 over the elements of an array. *)
Fixpoint checkEach (messages : json) (msgs : list json) : thrown + unit :=
  match msgs with
  | [] => inr tt
  | msg :: rest =>
      match prop (Some msg) "content" with
      | inl e => inl e
      | inr content =>
          if nullish content then inl (contentIsNull messages)
          else checkEach messages rest
      end
  end.

(** Lines 60-65: [for (const msg of inConfig.messages)].  An array is
    iterated by element, a string by character (a character has no
    [content]); nothing else can be iterated. *)
Definition contentCheck (inConfig : json) : thrown + unit :=
  match prop (Some inConfig) "messages" with
  | inl e => inl e
  | inr (Some (JArr l)) => checkEach (JArr l) l
  | inr (Some (JStr s)) =>
      match s with
      | EmptyString => inr tt
      | String _ _ => inl (contentIsNull (JStr s))
      end
  | inr _ => inl TypeError
  end.

(** Lines 50-65: the configuration the function goes on with. *)
Definition checked (inConfig : json) : thrown + json :=
  let inConfig := shape inConfig in
  match contentCheck inConfig with
  | inl e => inl e
  | inr _ => inr inConfig
  end.

(** *** Vocabulary of the properties *)

(** [msg.content != null] for a message that is not [null] itself. *)
Definition hasContent (msg : json) : bool :=
  negb (nullish (optprop (Some msg) "content")).

(** What [AiBridge.getChatCompletion] turns into an array of one message:
    a string, or an object with a role and a content. *)
Definition single (messages : json) : bool :=
  match messages with
  | JStr _ => true
  | JObj fs => negb (nullish (assoc "role" fs)) && negb (nullish (assoc "content" fs))
  | _ => false
  end.

End OpenAIRequest.

(** ** The completion endpoint: [getCompletion], request loop *)

Module LegacyCompletion.
Import JSString JS OpenAI.

Local Notation "'let*' x ':=' e 'in' k" := (bind e (fun x => k))
  (at level 10, x name, e at level 100, k at level 200, only parsing).

(** [text.trim()]: only a string has the method. *)
Definition trimOf (text : json) : thrown + json :=
  match text with
  | JStr s => inr (JStr (trim s))
  | _ => inl TypeError
  end.

(** How one pass of the loop ends: with a [return], in the [catch], or by
    falling out of the [if]. *)
Inductive pass : Type :=
| Settled (v : json) (calls : list json)
| Caught (e : thrown)
| Unanswered.

(** The [try] body from [respJson] on. *)
Definition tryBody (useRawApi : bool) (respJson : json) : pass :=
  match (let* choices := prop (Some respJson) "choices" in
         let* c0 := and_then choices (first choices) in
         and_then c0 (prop c0 "text")) with
  | inl e => Caught e
  | inr text =>
      match whenTruthy text with
      | Some t =>
          if useRawApi then Settled respJson []
          else match trimOf t with
               | inr finalStr => Settled finalStr [finalStr]
               | inl e => Caught e
               end
      | None => Unanswered
      end
  end.

Section Plain.
Variable reqJson : json.
Variable useRawApi : bool.
Variable fetch : nat -> FetchResult.

(** [for (let tries = 0; tries < 2; ++tries)] *)
Fixpoint requestLoop (remaining : nat) (st : LoopSt) : loopResult :=
  match remaining with
  | O => Exhausted st
  | S n =>
      match fetch (tries st) with
      | FetchFail e =>
          requestLoop n {| respJson := respJson st; respErr := Some e;
                           warned := warned st; tries := S (tries st) |}
      | FetchBody j =>
          match tryBody useRawApi j with
          | Settled v calls =>
              Done v calls {| respJson := j; respErr := respErr st;
                              warned := warned st; tries := S (tries st) |}
          | Caught e =>
              requestLoop n {| respJson := j; respErr := Some e;
                               warned := warned st; tries := S (tries st) |}
          | Unanswered =>
              requestLoop n {| respJson := j; respErr := respErr st;
                               warned := warned st; tries := S (tries st) |}
          end
      end
  end.

(** The plain branch of [getCompletion], from "The return data to use"
    to the final [throw]. *)
Definition plainRequest : Run :=
  match requestLoop 2 {| respJson := JNull; respErr := None;
                         warned := []; tries := 0 |} with
  | Done v calls st =>
      {| result := Return v; listener := calls;
         console := warned st; fetches := tries st |}
  | Exhausted st =>
      {| result := Throw (ErrorObj MISSING); listener := [];
         console := warned st ++ [report reqJson st]; fetches := tries st |}
  end.
End Plain.

(** *** Vocabulary of the properties *)

Definition passOf (useRawApi : bool) (r : FetchResult) : pass :=
  match r with
  | FetchFail e => Caught e
  | FetchBody j => tryBody useRawApi j
  end.

Definition caughtIn (p : pass) (before : option thrown) : option thrown :=
  match p with
  | Caught e => Some e
  | _ => before
  end.

Definition settled (p : pass) : bool :=
  match p with
  | Settled _ _ => true
  | _ => false
  end.


End LegacyCompletion.

(** ** [src/AiBridge.js]: [getEmbedding] *)

Module AiBridgeEmbedding.
Import JSString JS AiBridge.

(** The object [getEmbedding] returns. *)
Record Embedded : Type := {
  e_model : value;
  embedding : json;
  token_embedding : Z;
  e_cache : bool
}.

Section GetEmbedding.
(** The layer cache, the tokenizer and the provider call, as the bridge
    uses them; [defaults] is [this.config.default.embedding]. *)
Variable Cache : Type.
Variable getCacheEmbedding :
  Cache -> json -> list (string * json) -> string -> value * Cache.
Variable addCacheEmbedding :
  Cache -> json -> json -> list (string * json) -> string -> Cache.
Variable getTokenCount : json -> Z.
Variable openai_getEmbedding : value -> list (string * json) -> thrown + json.
Variable defaults : list (string * json).

Record EmbeddingCall : Type := {
  e_returned : thrown + Embedded;
  e_store : Cache
}.

(** Lines 229-231. *)
Definition embeddingOptions (prompt : json) (embeddingOpt : list (string * json)) :
    list (string * json) :=
  JSON.set_field "prompt" prompt
    (fold_left (fun r kv => JSON.set_field (fst kv) (snd kv) r) embeddingOpt defaults).

(** Lines 225-271. *)
Definition getEmbedding (self : Bridge) (c : Cache) (prompt : json)
    (embeddingOpt : list (string * json)) (cacheGrp : string) : EmbeddingCall :=
  let opt := embeddingOptions prompt embeddingOpt in
  let model := assoc "model" opt in
  let (cacheRes, c1) := getCacheEmbedding c prompt opt cacheGrp in
  match OpenAI.whenTruthy cacheRes with
  | Some cached =>
      {| e_returned := inr {| e_model := model; embedding := cached;
                              token_embedding := getTokenCount prompt;
                              e_cache := true |};
         e_store := c1 |}
  | None =>
      match openai_getEmbedding (_openai_key self) opt with
      | inl e => {| e_returned := inl e; e_store := c1 |}
      | inr embeddingRes =>
          {| e_returned := inr {| e_model := model; embedding := embeddingRes;
                                  token_embedding := getTokenCount prompt;
                                  e_cache := false |};
             e_store := addCacheEmbedding c1 prompt embeddingRes opt cacheGrp |}
      end
  end.
End GetEmbedding.

(** *** Vocabulary of the properties *)

(** A layer cache that serves the embedding added last under a key. *)
Definition lawfulEmbeddings {Cache : Type}
    (get : Cache -> json -> list (string * json) -> string -> value * Cache)
    (add : Cache -> json -> json -> list (string * json) -> string -> Cache) : Prop :=
  forall c prompt embedding opt cacheGrp,
    fst (get (add c prompt embedding opt cacheGrp) prompt opt cacheGrp) = Some embedding.

Definition vectorStore : Type := list (string * json).

Definition vectorGet (c : vectorStore) (prompt : json) (opt : list (string * json))
    (cacheGrp : string) : value * vectorStore :=
  (assoc (JSON.stringify (JObj opt)) c, c).

Definition vectorAdd (c : vectorStore) (prompt embedding : json)
    (opt : list (string * json)) (cacheGrp : string) : vectorStore :=
  JSON.set_field (JSON.stringify (JObj opt)) embedding c.

Definition vectorProvider (key : value) (opt : list (string * json)) : thrown + json :=
  inr (JArr [JNum 1; JNum 2; JNum 3]).

Definition failingProvider (key : value) (opt : list (string * json)) : thrown + json :=
  inl (FetchError "offline").

End AiBridgeEmbedding.

(** * Properties *)

(** ** Strings *)

Module JSStringFacts.
Import JSString.

Lemma length_drop (n : nat) (s : string) :
  String.length (drop n s) = (String.length s - n)%nat.
Proof.
  revert s; induction n as [|n IH]; intros [|c s]; simpl; auto with arith.
Qed.

Lemma length_substring (m k : nat) (s : string) :
  String.length (String.substring m k s) = Nat.min k (String.length s - m).
Proof.
  revert m k; induction s as [|c s IH]; intros [|m] [|k]; simpl; auto.
  all: rewrite IH; simpl; rewrite ?Nat.sub_0_r; reflexivity.
Qed.

(** A match found by [indexOf] lies inside the string. *)
Lemma indexOf_bound (s p : string) (m : nat) :
  indexOf s p = Some m -> (m + String.length p <= String.length s)%nat.
Proof.
  unfold indexOf; intros H.
  destruct p as [|c p].
  - destruct s; simpl in H; inversion H; subst; simpl; lia.
  - apply String.index_correct1 in H.
    apply (f_equal String.length) in H.
    rewrite length_substring in H. cbn [String.length] in *. lia.
Qed.

End JSStringFacts.

(** ** The request loop of [getChatCompletion] *)

Module PlainFacts.
Import JSString JS OpenAI.

Section Cases.
Variable reqJson : json.
Variable useRawApi : bool.
Variable fetch : nat -> FetchResult.

(** The loop, attempt by attempt. *)
Lemma plainRequest_cases :
  plainRequest reqJson useRawApi fetch =
  match attemptOf useRawApi (fetch 0%nat) with
  | Returned v calls =>
      {| result := Return v; listener := calls; console := []; fetches := 1 |}
  | Raised e0 w0 =>
      match attemptOf useRawApi (fetch 1%nat) with
      | Returned v calls =>
          {| result := Return v; listener := calls; console := w0; fetches := 2 |}
      | Raised e1 w1 =>
          let st := {| respJson := bodyAfter (fetch 1%nat) (bodyAfter (fetch 0%nat) JNull);
                       respErr := Some e1; warned := w0 ++ w1; tries := 2 |} in
          {| result := Throw (ErrorObj MISSING); listener := [];
             console := (w0 ++ w1) ++ [report reqJson st]; fetches := 2 |}
      end
  end.
Proof.
  unfold plainRequest, attemptOf, bodyAfter; cbn [requestLoop tries].
  destruct (fetch 0%nat) as [e0|j0]; cbn.
  - destruct (fetch 1%nat) as [e1|j1]; cbn; [reflexivity|].
    destruct (tryBody useRawApi j1); reflexivity.
  - destruct (tryBody useRawApi j0) as [v c|e0 w0]; cbn; [reflexivity|].
    destruct (fetch 1%nat) as [e1|j1]; cbn; [now rewrite app_nil_r|].
    destruct (tryBody useRawApi j1); reflexivity.
Qed.
End Cases.

(** A body with a truthy [error] makes the [try] body throw, after one
    warning. *)
Lemma tryBody_error (useRawApi : bool) (j : json) :
  encodesError j = true ->
  tryBody useRawApi j =
  Raised (Str (errorText j))
         [[LStr "getChatCompletion API error"; LVal (optprop (Some j) "error")]].
Proof.
  unfold encodesError, tryBody, errorText, optprop.
  destruct (prop (Some j) "error") as [e|err]; cbn; [discriminate|].
  intros ->. reflexivity.
Qed.

Lemma prop_inl (v : value) (k : string) (e : thrown) :
  prop v k = inl e -> e = TypeError.
Proof. destruct v as [[]|]; cbn; congruence. Qed.

Lemma first_inl (v : value) (e : thrown) :
  first v = inl e -> e = TypeError.
Proof. destruct v as [[| | |[]| |]|]; cbn; congruence. Qed.

Lemma readChoices_inl (useRawApi : bool) (j : json) (e : thrown) :
  readChoices useRawApi j = inl e -> e = TypeError.
Proof.
  unfold readChoices, bind, and_then; intros E.
  repeat match type of E with
         | context [match ?x with _ => _ end] =>
             let H := fresh "H" in destruct x eqn:H; try discriminate
         end;
  inversion E; subst;
  repeat match goal with
         | H : (if ?b then _ else _) = inl _ |- _ =>
             destruct b; try discriminate
         end;
  eauto using prop_inl, first_inl.
Qed.

(** Whatever the [try] body throws is truthy: the report after the loop
    takes its first branch. *)
Lemma tryBody_raised_truthy (useRawApi : bool) (j : json) e w :
  tryBody useRawApi j = Raised e w -> thrownTruthy e = true.
Proof.
  unfold tryBody.
  destruct (prop (Some j) "error") as [e'|err] eqn:E.
  - intros [= <- _]. now rewrite (prop_inl _ _ _ E).
  - destruct (truthy err).
    + intros [= <- _]. reflexivity.
    + destruct (readChoices useRawApi j) as [e'|a] eqn:R.
      * intros [= <- _]. now rewrite (readChoices_inl _ _ _ R).
      * intros ->. apply (f_equal (fun x => x)) in R. revert R.
        unfold readChoices, bind, and_then, completion; intros R.
        repeat match type of R with
               | context [match ?x with _ => _ end] =>
                   let H := fresh "H" in destruct x eqn:H; try discriminate
               end.
Qed.

(** C1, at an input: an error body on the first attempt does not end
    the call.  A second [fetch] is made and its completion is returned
    to the caller and to the listener. *)
Lemma error_body_is_retried_example :
  let r := plainRequest request false
             (net (FetchBody error_body) (FetchBody ok_body)) in
  encodesError error_body = true /\
  fetches r = 2%nat /\
  result r = Return (JStr "Hello") /\
  listener r = [JStr "Hello"].
Proof. vm_compute. repeat split. Qed.

(** C1, as the code has it: a body that encodes an error is handled as
    any exception of the attempt is.  On the first attempt it costs a
    warning and the loop goes on: a second [fetch] is always made and it
    decides the call, by the completion it yields or by the generic
    error when it yields none. *)
Theorem error_body_then_next_attempt
    (reqJson : json) (useRawApi : bool) (fetch : nat -> FetchResult) (j : json) :
  fetch 0%nat = FetchBody j ->
  encodesError j = true ->
  let r := plainRequest reqJson useRawApi fetch in
  fetches r = 2%nat /\
  head (console r) =
    Some [LStr "getChatCompletion API error"; LVal (optprop (Some j) "error")] /\
  match attemptOf useRawApi (fetch 1%nat) with
  | Returned v calls => result r = Return v /\ listener r = calls
  | Raised _ _ => result r = Throw (ErrorObj MISSING) /\ listener r = []
  end.
Proof.
  intros F E r; subst r.
  rewrite plainRequest_cases, F; cbn [attemptOf].
  rewrite (tryBody_error _ _ E).
  destruct (attemptOf useRawApi (fetch 1%nat)); cbn; auto.
Qed.

Lemma error_body_then_next_attempt_witness :
  fetches (plainRequest request false
             (net (FetchBody error_body) (FetchBody ok_body))) = 2%nat.
Proof.
  exact (proj1 (error_body_then_next_attempt request false
                  (net (FetchBody error_body) (FetchBody ok_body))
                  error_body eq_refl eq_refl)).
Defined.

(** C3, at an input: the error raised after two failed attempts is the
    fixed one; it mentions neither the transport error of the last
    attempt nor the raw response received before.  The report on the
    console has the transport error and not the raw response. *)
Lemma exhausted_error_carries_no_diagnostics :
  let r := plainRequest request false
             (net (FetchBody error_body) (FetchFail (FetchError "ECONNRESET"))) in
  result r = Throw (ErrorObj MISSING) /\
  carries (ErrorObj MISSING) "ECONNRESET" = false /\
  carries (ErrorObj MISSING) (JSON.stringify error_body) = false /\
  mentions (lastReport r) "ECONNRESET" = true /\
  mentions (lastReport r) (JSON.stringify error_body) = false.
Proof. vm_compute. repeat split. Qed.

(** A body without [error] and without [choices] ends the call with
    [null], on whichever attempt it arrives. *)
Lemma empty_body_returns_null_example :
  result (plainRequest request false
            (net (FetchFail (FetchError "ECONNRESET")) (FetchBody (JObj []))))
  = Return JNull /\
  result (plainRequest request false (net (FetchBody (JObj [])) (FetchBody ok_body)))
  = Return JNull.
Proof. vm_compute. split; reflexivity. Qed.

(** C3, as the code has it: when both attempts end in an exception the
    call raises the fixed error, without a call of the listener.  The
    diagnostics go to the console: the warnings of the attempts, then one
    report with the request and the last caught error, or, were that
    error falsy, the last raw response. *)
Theorem exhausted_raises_generic_error
    (reqJson : json) (useRawApi : bool) (fetch : nat -> FetchResult)
    (e0 e1 : thrown) (w0 w1 : list warning) :
  attemptOf useRawApi (fetch 0%nat) = Raised e0 w0 ->
  attemptOf useRawApi (fetch 1%nat) = Raised e1 w1 ->
  let r := plainRequest reqJson useRawApi fetch in
  result r = Throw (ErrorObj MISSING) /\
  listener r = [] /\
  fetches r = 2%nat /\
  console r =
    (w0 ++ w1) ++
    [[LStr (join NL
              [ "## Unable to handle prompt for ...";
                JSON.stringify reqJson;
                if thrownTruthy e1 then "## Recieved error ..."
                else "## Recieved response ...";
                if thrownTruthy e1 then thrownToString e1
                else JSON.stringify
                       (bodyAfter (fetch 1%nat) (bodyAfter (fetch 0%nat) JNull)) ])]].
Proof.
  intros A0 A1 r; subst r.
  rewrite plainRequest_cases, A0, A1; cbn.
  repeat split. unfold report; cbn.
  destruct (thrownTruthy e1); reflexivity.
Qed.

Lemma exhausted_raises_generic_error_witness :
  result (plainRequest request false
            (net (FetchBody error_body) (FetchFail (FetchError "ECONNRESET"))))
  = Throw (ErrorObj MISSING).
Proof.
  exact (proj1 (exhausted_raises_generic_error request false
                  (net (FetchBody error_body) (FetchFail (FetchError "ECONNRESET")))
                  _ _ _ _ eq_refl eq_refl)).
Defined.

End PlainFacts.

(** ** The stream decoder of [getChatCompletion] *)

Module StreamFacts.
Import JSString JS OpenAI JSStringFacts.

Section Decoder.
Variable parse : string -> option json.

Lemma handleEvent_buffer ev st st' :
  handleEvent parse ev st = Next st' -> rawBuffer st' = rawBuffer st.
Proof.
  unfold handleEvent.
  repeat match goal with
         | |- context [if ?b then _ else _] => destruct b
         | |- context [match ?x with _ => _ end] => destruct x
         end; try discriminate; intros [= <-]; reflexivity.
Qed.

Lemma handleEvent_events ev st :
  match handleEvent parse ev st with
  | Next st' => events st' = events st /\ isError ev = false
  | Halt e st' =>
      events st' = events st /\
      (isError ev = false \/
       isError ev = true /\
       e = Str ("Unexpected stream request error: " +:+ slice ev 6))
  end.
Proof.
  unfold handleEvent, isError.
  destruct (startsWith ev "error:"); [cbn; split; auto|].
  destruct (startsWith ev "data: [DONE]"); [cbn; split; auto|].
  destruct (startsWith ev "data: {"); [|cbn; split; auto].
  destruct (parse _) as [dataObj|]; [|cbn; split; auto].
  destruct (tokenOf dataObj); cbn; split; auto.
Qed.

Lemma dequeue_spec st ev st1 :
  dequeue st = Some (ev, st1) ->
  (String.length (rawBuffer st1) < String.length (rawBuffer st))%nat /\
  events st1 = events st ++ [ev].
Proof.
  unfold dequeue.
  destruct (indexOf (rawBuffer st) NLNL) as [[|p]|] eqn:I; try discriminate.
  intros H. apply (inj Some) in H. apply pair_equal_spec in H as [<- <-].
  split; [|reflexivity].
  apply indexOf_bound in I. cbv [rawBuffer]. fold (rawBuffer st).
  unfold slice. rewrite length_drop.
  change (String.length NLNL) with 2%nat in I. lia.
Qed.

(** Fuel beyond the length of the buffer changes nothing. *)
Lemma processEvents_fuel (f1 f2 : nat) (st : StreamSt) :
  (String.length (rawBuffer st) <= f1)%nat ->
  (String.length (rawBuffer st) <= f2)%nat ->
  processEvents parse f1 st = processEvents parse f2 st.
Proof.
  revert f2 st; induction f1 as [|f1 IH]; intros f2 st L1 L2.
  - destruct f2; cbn; destruct (dequeue st) as [[ev st1]|] eqn:D; auto.
    apply dequeue_spec in D as [D _]. lia.
  - destruct f2; cbn; destruct (dequeue st) as [[ev st1]|] eqn:D; auto.
    + apply dequeue_spec in D as [D _]. lia.
    + destruct (handleEvent parse ev st1) as [st2|] eqn:H; auto.
      apply dequeue_spec in D as [D _]. apply handleEvent_buffer in H.
      apply IH; rewrite H; lia.
Qed.

(** The inner [while] loop, unfolded once: [drain] is the loop of
    lines 219-259, for every buffer. *)
Lemma drain_unfold (st : StreamSt) :
  drain parse st =
  match dequeue st with
  | None => Next st
  | Some (dataEvent, st1) =>
      match handleEvent parse dataEvent st1 with
      | Halt e st2 => Halt e st2
      | Next st2 => drain parse st2
      end
  end.
Proof.
  unfold drain.
  destruct (dequeue st) as [[ev st1]|] eqn:D.
  - pose proof (dequeue_spec _ _ _ D) as [L _].
    destruct (String.length (rawBuffer st)) as [|n] eqn:Len; [lia|].
    cbn. rewrite D.
    destruct (handleEvent parse ev st1) as [st2|] eqn:H; auto.
    apply handleEvent_buffer in H.
    apply processEvents_fuel; rewrite H; lia.
  - destruct (String.length (rawBuffer st)); cbn; now rewrite D.
Qed.

Lemma clean_stopped e st : clean st -> stopped e st.
Proof. now left. Qed.

Lemma processEvents_holds fuel st :
  clean st -> holds (processEvents parse fuel st).
Proof.
  revert st; induction fuel as [|fuel IH]; intros st C; cbn;
    destruct (dequeue st) as [[ev st1]|] eqn:D; cbn; auto.
  apply dequeue_spec in D as [_ E1].
  pose proof (handleEvent_events ev st1) as H.
  destruct (handleEvent parse ev st1) as [st2|e st2].
  - destruct H as [E2 N]. apply IH. unfold clean.
    rewrite E2, E1. apply Forall_app; split; auto.
  - destruct H as [E2 [N|[Y ->]]]; cbn.
    + left. unfold clean. rewrite E2, E1. apply Forall_app; split; auto.
    + right. exists (events st), ev. rewrite E2, E1. auto.
Qed.

Lemma onRead_holds value st : clean st -> holds (onRead parse value st).
Proof. intros C. unfold onRead, drain. now apply processEvents_holds. Qed.

Lemma readLoop_holds reads st : clean st -> holds (readLoop parse reads st).
Proof.
  revert st; induction reads as [|[value done|e] reads IH]; intros st C;
    cbn [readLoop].
  - now apply onRead_holds.
  - pose proof (onRead_holds value st C) as H.
    destruct (onRead parse value st) as [st1|e st1]; cbn in *; auto.
    destruct (isNone value || done); cbn; auto.
  - now left.
Qed.

Lemma decode_holds reads : holds (decode parse reads).
Proof.
  unfold decode.
  pose proof (readLoop_holds reads initial (Forall_nil_2 _)) as H.
  fold initial.
  destruct (readLoop parse reads initial) as [st|e st]; cbn in *; auto.
  unfold finish. destruct (0 <? _)%nat; cbn; auto.
  left; exact H.
Qed.

End Decoder.

(** C4, at an input: the error raised for an [error:] block is the
    fixed one; the text after the prefix is not in it. *)
Lemma error_detail_not_surfaced_example :
  let r := streamRequest JSON.parse
             (inr [Read (Some ("error: quota exceeded" +:+ NLNL)) false;
                   Read None true]) in
  decodedEvents JSON.parse
    [Read (Some ("error: quota exceeded" +:+ NLNL)) false; Read None true]
    = ["error: quota exceeded"] /\
  result r = Throw (Str PROCESSING_ERROR) /\
  carries (Str PROCESSING_ERROR) "quota exceeded" = false.
Proof. vm_compute. repeat split. Qed.

(** C4, as the code has it: a data event that begins with [error:] is
    the last one the decoder takes; the call fails at once with the
    fixed processing error, and what follows the prefix in the block
    goes to the console, in the last warning. *)
Theorem error_event_stops_decoding
    (parse : string -> option json) (reads : list ReadResult) (ev : string) :
  In ev (decodedEvents parse reads) ->
  isError ev = true ->
  let r := streamRequest parse (inr reads) in
  result r = Throw (Str PROCESSING_ERROR) /\
  terminal r = ERROR /\
  last (decodedEvents parse reads) = Some ev /\
  last (console r) =
    Some [LStr "Unexpected event processing error"; LThrown (errorDetail ev)].
Proof.
  intros I E r; subst r.
  pose proof (decode_holds parse reads) as H.
  unfold decodedEvents in *. unfold streamRequest, terminal.
  destruct (decode parse reads) as [st|e st]; cbn in *.
  - exfalso. unfold clean in H. rewrite List.Forall_forall in H.
    specialize (H ev I). congruence.
  - destruct H as [H|(evs & ev0 & Eq & Hevs & Herr & ->)].
    + exfalso. unfold clean in H. rewrite List.Forall_forall in H.
      specialize (H ev I). congruence.
    + rewrite Eq in *. apply in_app_or in I as [I|[<-|[]]].
      * exfalso. rewrite List.Forall_forall in Hevs.
        specialize (Hevs ev I). congruence.
      * rewrite !last_snoc. auto.
Qed.

Lemma error_event_stops_decoding_witness :
  result (streamRequest JSON.parse
            (inr [Read (Some ("error: quota exceeded" +:+ NLNL)) false;
                  Read None true]))
  = Throw (Str PROCESSING_ERROR).
Proof.
  refine (proj1 (error_event_stops_decoding JSON.parse _
                   "error: quota exceeded" _ _)).
  - vm_compute. left. reflexivity.
  - vm_compute. reflexivity.
Defined.

(** C5: decoding the stream of the design document, delivered and then
    closed, hands exactly one delta ["Hi"] to the listener and returns
    ["Hi"]; the sentinel block is taken off the buffer, changes nothing
    and does not end the decoding: a block that follows it is decoded. *)
Theorem decode_hi_done :
  let reads := [Read (Some hi_stream) false; Read None true] in
  let r := streamRequest JSON.parse (inr reads) in
  listener r = [JStr "Hi"] /\
  result r = Return (JStr "Hi") /\
  terminal r = DONE /\
  console r = [] /\
  decodedEvents JSON.parse reads = [delta "Hi"; "data: [DONE]"] /\
  (forall parse st, handleEvent parse "data: [DONE]" st = Next st) /\
  let r' := streamRequest JSON.parse
              (inr [Read (Some (hi_stream +:+ delta "!" +:+ NLNL)) false;
                    Read None true]) in
  listener r' = [JStr "Hi"; JStr "!"] /\ result r' = Return (JStr "Hi!").
Proof. vm_compute. repeat split. Qed.

(** The same stream cut in two at any place decodes to the same. *)
Lemma hi_stream_any_split (n : nat) :
  let r := streamRequest JSON.parse
             (inr [Read (Some (take n hi_stream)) false;
                   Read (Some (drop n hi_stream)) false;
                   Read None true]) in
  listener r = [JStr "Hi"] /\ result r = Return (JStr "Hi").
Proof.
  do 63 (destruct n as [|n]; [vm_compute; split; reflexivity|]).
  vm_compute; split; reflexivity.
Qed.

Lemma length_pos_iff (s : string) :
  (0 <? String.length s)%nat = true <-> s <> "".
Proof. destruct s; cbn; split; intros; congruence. Qed.

(** C6: when the source signals completion, the call fails if the
    buffer holds anything but white space, and otherwise returns the
    whole accumulated text. *)
Theorem end_of_stream_leftover
    (parse : string -> option json) (reads : list ReadResult) (st : StreamSt) :
  readLoop parse reads initial = Next st ->
  let r := streamRequest parse (inr reads) in
  (trim (rawBuffer st) <> "" ->
     result r = Throw (Str PROCESSING_ERROR) /\
     terminal r = ERROR /\
     console r =
       log st ++
       [[LStr "Unexpected end of stream, with unprocessed data";
         LStr (trim (rawBuffer st))];
        [LStr "Unexpected event processing error"; LThrown (Str UNEXPECTED_END)]]) /\
  (trim (rawBuffer st) = "" ->
     result r = Return (JStr (parsedRes st)) /\
     terminal r = DONE /\
     listener r = emitted st /\
     console r = log st).
Proof.
  intros L r; subst r. unfold streamRequest, terminal, decode.
  fold initial. rewrite L. unfold finish. split; intros T.
  - apply length_pos_iff in T. rewrite T; cbn.
    rewrite <- app_assoc. auto.
  - rewrite T; cbn. auto.
Qed.

Lemma end_of_stream_leftover_witness :
  result (streamRequest JSON.parse
            (inr [Read (Some "data: {incomplete") false; Read None true]))
  = Throw (Str PROCESSING_ERROR).
Proof.
  refine (proj1 (proj1 (end_of_stream_leftover JSON.parse _
                          {| rawBuffer := "data: {incomplete"; parsedRes := "";
                             emitted := []; log := []; events := [] |} _) _)).
  - vm_compute. reflexivity.
  - vm_compute. discriminate.
Defined.

End StreamFacts.


(** ** The bridge *)

Module AiBridgeFacts.
Import JSString JS AiBridge.

Local Open Scope Q_scope.

(** C9: a configuration whose two provider keys are absent ([undefined],
    [null] or the empty string) cannot be constructed; and whatever the
    other key is, the empty string leaves the bridge with the keys an
    absent key leaves it with. *)
Theorem constructor_without_keys (cfg : Config) (other : value) :
  blank (provider_openai cfg) = true ->
  blank (provider_anthropic cfg) = true ->
  constructor cfg = inl (Str "No provider keys provided") /\
  keysOf (constructor (withKeys cfg (Some (JStr "")) other))
    = keysOf (constructor (withKeys cfg (Some JNull) other)) /\
  keysOf (constructor (withKeys cfg other (Some (JStr ""))))
    = keysOf (constructor (withKeys cfg other (Some JNull))).
Proof.
  intros Ho Ha. repeat split.
  - unfold constructor, nullOut.
    destruct (provider_openai cfg) as [[| | |so| |]|]; try discriminate;
    destruct (provider_anthropic cfg) as [[| | |sa| |]|]; try discriminate;
    cbn in *; rewrite ?Ho, ?Ha; reflexivity.
  - unfold constructor, withKeys; cbn.
    destruct (nullish (nullOut other)); reflexivity.
  - unfold constructor, withKeys; cbn.
    destruct (nullish (nullOut other)); reflexivity.
Qed.

Lemma constructor_without_keys_witness :
  constructor sampleConfig = inl (Str "No provider keys provided").
Proof.
  exact (proj1 (constructor_without_keys sampleConfig None eq_refl eq_refl)).
Defined.

(** One key is enough. *)
Lemma constructor_with_a_key (cfg : Config) (k : string) :
  k <> "" ->
  provider_openai cfg = Some (JStr k) \/ provider_anthropic cfg = Some (JStr k) ->
  exists b, constructor cfg = inr b.
Proof.
  intros N [E|E]; unfold constructor, nullOut; rewrite E;
    apply String.eqb_neq in N; cbn [nullish looseEqEmpty orb]; rewrite N;
    cbn [nullish andb].
  - rewrite andb_false_r. eauto.
  - eauto.
Qed.

(** C8: with no key given, a request whose temperature is [null] is
    looked up under the key [NaN], whatever the multiplier and the random
    source are: [null == 0] is false, [parseFloat(null)] is [NaN], the
    guard [Math.floor(tempRange) <= 0] is false of [NaN] and the key is
    [Math.floor(Math.random() * NaN)].  The generated key is then no
    non-negative integer. *)
Theorem null_temperature_key (tempKey : Z) (multiplier : setting) (random : Q) :
  generateTempKey tempKey Missing multiplier random
    = (if (tempKey <? 0)%Z then KeyNaN else KeyInt tempKey) /\
  exists p,
    prepare sampleTokens random sampleBridge (JStr "hi") nullTemperature (-1) = inr p /\
    p_tempKey p = KeyNaN /\
    forall k : Z, p_tempKey p <> KeyInt k.
Proof.
  split.
  - unfold generateTempKey. destruct (tempKey <? 0)%Z; reflexivity.
  - eexists. split; [vm_compute; reflexivity|].
    split; [reflexivity|discriminate].
Qed.

Section Calls.
Variable Cache : Type.
Variable getCacheChatCompletion :
  Cache -> string -> Options -> json -> string -> Key -> value * Cache.
Variable addCacheChatCompletion :
  Cache -> string -> json -> Options -> json -> string -> Key -> Cache.
Variable getTokenCount : json -> Z.
Variable callProvider : Provider -> value -> Options -> json -> ProviderRun.
Variable random : Q.

(** C10: once the request is prepared, a cache hit hands the cached
    completion to the listener, once, and returns it flagged
    [cache = true]; a miss hands the listener what the provider call
    streams and, when that call answers a completion, returns this
    completion flagged [cache = false]; when the provider call throws,
    so does the miss. *)
Theorem getChatCompletion_hit_or_miss
    (self : Bridge) (c c1 : Cache) (messages : json) (promptOpts : PromptOpts)
    (cacheGrp : string) (tempKey : Z) (p : Prepared) (cacheRes : value) :
  prepare getTokenCount random self messages promptOpts tempKey = inr p ->
  getCacheChatCompletion c (p_prompt p) (p_opt p) (p_messages p) cacheGrp (p_tempKey p)
    = (cacheRes, c1) ->
  let call := getChatCompletion Cache getCacheChatCompletion addCacheChatCompletion
                getTokenCount callProvider random
                self c messages promptOpts cacheGrp tempKey in
  let run := dispatch callProvider self p in
  (nullish cacheRes = false ->
     exists cached,
       cacheRes = Some cached /\
       listened Cache call = [cached] /\
       returned Cache call
       = inr {| c_model := p_model p; completion := cached;
                token_prompt := p_promptTokenCount p;
                token_completion := getTokenCount cached;
                token_cache := true |}) /\
  (nullish cacheRes = true ->
     listened Cache call = streamed run /\
     (forall fresh,
        answer run = inr fresh ->
        returned Cache call
        = inr {| c_model := p_model p; completion := fresh;
                 token_prompt := p_promptTokenCount p;
                 token_completion := getTokenCount fresh;
                 token_cache := false |}) /\
     (forall e, answer run = inl e -> returned Cache call = inl e) /\
     (forall done,
        returned Cache call = inr done ->
        token_cache done = false /\ answer run = inr (completion done))).
Proof.
  intros P L call run; subst call run. unfold getChatCompletion. rewrite P, L.
  split; intros N.
  - destruct cacheRes as [[]|]; try discriminate; cbn; eauto 10.
  - assert (match cacheRes with Some JNull | None => True | _ => False end) as M
      by (destruct cacheRes as [[]|]; try discriminate; exact I).
    destruct cacheRes as [[]|]; try contradiction;
      destruct (answer (dispatch callProvider self p)) eqn:A; cbn;
      (split; [reflexivity|]);
      (split; [intros fresh [= <-]; reflexivity|]);
      (split; [intros e' [= <-]; reflexivity|]);
      intros done [= <-]; cbn; auto.
Qed.
End Calls.

Lemma getChatCompletion_hit_or_miss_witness :
  (listened sampleCache (sampleCall sampleStore) = [JStr "cached"] /\
   returned sampleCache (sampleCall sampleStore)
   = inr {| c_model := "gpt-3.5-turbo-1106"; completion := JStr "cached";
            token_prompt := 3; token_completion := 3; token_cache := true |}) /\
  (listened sampleCache (sampleCall []) = [JStr "fresh"] /\
   returned sampleCache (sampleCall [])
   = inr {| c_model := "gpt-3.5-turbo-1106"; completion := JStr "fresh";
            token_prompt := 3; token_completion := 3; token_cache := false |}).
Proof.
  assert (prepare sampleTokens (1 # 2) sampleBridge (JStr "hi") noOpts (-1)
          = inr samplePrepared) as P by (vm_compute; reflexivity).
  split.
  - destruct (proj1 (getChatCompletion_hit_or_miss sampleCache sampleGet sampleAdd
                       sampleTokens sampleProvider (1 # 2) sampleBridge
                       sampleStore sampleStore (JStr "hi") noOpts "default" (-1)
                       samplePrepared (Some (JStr "cached")) P eq_refl) eq_refl)
      as (cached & E & Hl & Hr).
    injection E as <-. split; [exact Hl|exact Hr].
  - destruct (proj2 (getChatCompletion_hit_or_miss sampleCache sampleGet sampleAdd
                       sampleTokens sampleProvider (1 # 2) sampleBridge
                       [] [] (JStr "hi") noOpts "default" (-1)
                       samplePrepared None P eq_refl) eq_refl)
      as (Hl & Hr & _).
    split; [exact Hl|exact (Hr (JStr "fresh") eq_refl)].
Defined.

End AiBridgeFacts.

(** ** The MongoDB backend *)

Module MongoDBCacheFacts.
Import JSString JS MongoDBCache.

(** The lookup of an embedding reads the prompt and the model of the
    request, and nothing else of it. *)
Lemma getCacheEmbedding_by_prompt (db : database) (a b : CacheObj) :
  prompt a = prompt b -> model a = model b ->
  getCacheEmbedding db a = getCacheEmbedding db b.
Proof.
  intros P M. unfold getCacheEmbedding, getCacheCollectionName.
  now rewrite P, M.
Qed.

(** C2, at an input: two requests for one prompt with different
    options are stored as two records, by prompt and options, and are
    both looked up by the prompt alone: the second request reads the
    vector of the first, before and after its own has been stored. *)
Lemma embedding_lookup_ignores_options :
  let db1 := addCacheEmbedding ∅ request_small vector_small in
  let db2 := addCacheEmbedding db1 request_large vector_large in
  json_eqb (cleanOpt request_small) (cleanOpt request_large) = false /\
  getCacheEmbedding db1 request_large = Some vector_small /\
  List.length (collectionOf db2 "embedding_text-embedding-ada-002") = 2%nat /\
  getCacheEmbedding db2 request_large = Some vector_small.
Proof. vm_compute. repeat split. Qed.

(** The completion path asks for the whole key on both sides. *)
Lemma completion_lookup_reads_options :
  let small := addCacheCompletion ∅ request_small (JStr "small") in
  getCacheCompletion small request_large = Some JNull /\
  getCacheCompletion small request_small = Some (JStr "small").
Proof. vm_compute. split; reflexivity. Qed.

End MongoDBCacheFacts.

(** ** The cache index *)

Module StringifyFacts.
Import JSString JS StableStringify AiBridge.

Lemma ascii_compare_refl (a : ascii) : Ascii.compare a a = Eq.
Proof. unfold Ascii.compare. apply N.compare_refl. Qed.

Lemma ascii_compare_lt_trans (a b c : ascii) :
  Ascii.compare a b = Lt -> Ascii.compare b c = Lt -> Ascii.compare a c = Lt.
Proof.
  unfold Ascii.compare. rewrite !N.compare_lt_iff. apply N.lt_trans.
Qed.

Lemma leb_trans (s1 s2 s3 : string) :
  String.leb s1 s2 = true -> String.leb s2 s3 = true -> String.leb s1 s3 = true.
Proof.
  unfold String.leb.
  revert s2 s3; induction s1 as [|a s1 IH]; intros [|b s2] [|c s3];
    cbn; try (discriminate || reflexivity).
  destruct (Ascii.compare a b) eqn:Eab; try discriminate;
    destruct (Ascii.compare b c) eqn:Ebc; try discriminate.
  - apply Ascii.compare_eq_iff in Eab, Ebc; subst.
    rewrite ascii_compare_refl. apply IH.
  - apply Ascii.compare_eq_iff in Eab; subst. now rewrite Ebc.
  - apply Ascii.compare_eq_iff in Ebc; subst. now rewrite Eab.
  - now rewrite (ascii_compare_lt_trans _ _ _ Eab Ebc).
Qed.

#[local] Instance key_le_total : Total key_le.
Proof. intros a b. apply String.leb_total. Qed.

#[local] Instance key_le_antisym : AntiSymm (=) key_le.
Proof. intros a b. apply String.leb_antisym. Qed.

#[local] Instance key_le_trans : Transitive key_le.
Proof. intros a b c. apply leb_trans. Qed.

(** Sorting forgets the order the keys came in. *)
Lemma sortedKeys_perm {A B : Type} (fs1 : list (string * A)) (fs2 : list (string * B)) :
  List.map fst fs1 ≡ₚ List.map fst fs2 -> sortedKeys fs1 = sortedKeys fs2.
Proof.
  intros P. unfold sortedKeys.
  apply (Sorted_unique key_le); try apply Sorted_merge_sort; try apply _.
  now rewrite !merge_sort_Permutation.
Qed.

Lemma assoc_map {A B : Type} (f : A -> B) (k : string) (fs : list (string * A)) :
  assoc k (List.map (fun kv => (fst kv, f (snd kv))) fs) = f <$> assoc k fs.
Proof.
  induction fs as [|[k' v] fs IH]; cbn; [reflexivity|].
  destruct (String.eqb k k'); auto.
Qed.

Lemma assoc_Some_In {A : Type} (k : string) (fs : list (string * A)) (v : A) :
  assoc k fs = Some v -> In (k, v) fs.
Proof.
  induction fs as [|[k' v'] fs IH]; cbn; [discriminate|].
  destruct (String.eqb_spec k k') as [->|N].
  - intros [= ->]. now left.
  - intros H. right. auto.
Qed.

Lemma assoc_is_Some {A : Type} (k : string) (fs : list (string * A)) :
  is_Some (assoc k fs) <-> k ∈ List.map fst fs.
Proof.
  induction fs as [|[k' v'] fs IH]; cbn.
  - split; [intros [? [=]]|intros H; inversion H].
  - destruct (String.eqb_spec k k') as [->|N].
    + split; [intros _; left|eauto].
    + rewrite IH. split; [intros H; now right|].
      intros H; inversion H; subst; [contradiction|assumption].
Qed.

Lemma same_keys (fs1 fs2 : list (string * json)) :
  (forall key, option_Forall2 same (assoc key fs1) (assoc key fs2)) ->
  forall key, key ∈ List.map fst fs1 <-> key ∈ List.map fst fs2.
Proof.
  intros H key. rewrite <- !assoc_is_Some.
  destruct (H key); split; intros [? E]; try discriminate; eauto.
Qed.

(** The serialisation depends on the content only. *)
Lemma jsonStringify_same (m1 : json) :
  forall m2, same m1 m2 -> jsonStringify m1 = jsonStringify m2.
Proof.
  induction m1 as [| | | |l IH|fs IH] using json_ind;
    intros m2 S; inversion S; subst; try reflexivity.
  - cbn [jsonStringify]. do 3 f_equal.
    clear S.
    match goal with H : Forall2 same _ _ |- _ => revert IH; induction H end;
      intros IH; [reflexivity|].
    inversion IH; subst. cbn. f_equal; auto.
  - cbn [jsonStringify].
    match goal with
    | H : forall key, option_Forall2 same _ _ |- _ => rename H into Hsame
    end.
    rewrite (sortedKeys_perm fs fs2)
      by (apply NoDup_Permutation; auto using same_keys).
    do 3 f_equal. apply List.map_ext. intros key. do 3 f_equal.
    rewrite !assoc_map.
    pose proof (Hsame key) as Hk.
    destruct (assoc key fs) as [v1|] eqn:E1, (assoc key fs2) as [v2|] eqn:E2;
      inversion Hk; subst; [|reflexivity].
    cbn. f_equal. apply assoc_Some_In in E1.
    rewrite List.Forall_forall in IH. now apply (IH _ E1).
Qed.

Lemma same_nullish (a b : value) :
  option_Forall2 same a b -> nullish a = nullish b.
Proof. intros [x y S|]; [inversion S; reflexivity|reflexivity]. Qed.

(** C7: two message payloads with the same content, whatever the order
    their object fields were inserted in, are serialised to the same
    string by [jsonStringify], and index the cache by the same prompt. *)
Theorem same_payload_same_index (m1 m2 : json) :
  same m1 m2 ->
  jsonStringify m1 = jsonStringify m2 /\ promptOf m1 = promptOf m2.
Proof.
  intros S. split; [now apply jsonStringify_same|].
  unfold promptOf, normalizeMessages.
  inversion S; subst; try reflexivity.
  - now rewrite (jsonStringify_same _ _ S).
  - cbn [prop].
    match goal with
    | H : forall key, option_Forall2 same _ _ |- _ => rename H into Hsame
    end.
    rewrite <- (same_nullish _ _ (Hsame "role")).
    rewrite <- (same_nullish _ _ (Hsame "content")).
    destruct (negb (nullish (assoc "role" fs1)));
      [destruct (negb (nullish (assoc "content" fs1)))|];
      f_equal; apply jsonStringify_same; auto.
    constructor. constructor; [assumption|constructor].
Qed.

Lemma messages_same : same messages_rc messages_cr.
Proof.
  constructor. constructor; [|constructor].
  constructor.
  - cbn. apply NoDup_cons; split; [|apply NoDup_singleton].
    rewrite list_elem_of_singleton. discriminate.
  - cbn. apply NoDup_cons; split; [|apply NoDup_singleton].
    rewrite list_elem_of_singleton. discriminate.
  - intros key; cbn.
    destruct (String.eqb_spec key "role") as [->|R]; cbn.
    + repeat constructor.
    + destruct (String.eqb_spec key "content") as [->|C]; repeat constructor.
Defined.

Lemma same_payload_same_index_witness :
  jsonStringify messages_rc = jsonStringify messages_cr.
Proof.
  exact (proj1 (same_payload_same_index messages_rc messages_cr messages_same)).
Defined.

(** The prompt a prepared request carries is that index. *)
Lemma prepare_prompt (getTokenCount : json -> Z) (random : Q) (self : Bridge)
    (messages : json) (promptOpts : PromptOpts) (tempKey : Z) (p : Prepared) :
  prepare getTokenCount random self messages promptOpts tempKey = inr p ->
  promptOf messages = inr (p_prompt p).
Proof.
  unfold prepare, promptOf.
  destruct (normalizeMessages messages) as [e|m]; [discriminate|].
  destruct (normalizeCompletionOptObject _ _ _); [discriminate|].
  intros [= <-]. reflexivity.
Qed.

End StringifyFacts.

(** ** Laws of the MongoDB backend *)

Module MongoDBCacheLaws.
Import JSString JS MongoDBCache MongoDBKeys.

Lemma json_eqb_eq (a : json) : forall b, json_eqb a b = true <-> a = b.
Proof.
  induction a as [|x|x|x|l IH|fs IH] using json_ind; intros [|y|y|y|l2|fs2];
    cbn; try (split; [discriminate|intros [=]]); try (split; intros; reflexivity).
  - rewrite Bool.eqb_true_iff. split; congruence.
  - rewrite Z.eqb_eq. split; congruence.
  - rewrite String.eqb_eq. split; congruence.
  - revert l2; induction IH as [|x l Hx _ IHl]; intros [|y l2];
      try (split; [discriminate|intros [=]]); try (split; intros; reflexivity).
    rewrite andb_true_iff, Hx, IHl.
    split; [intros [-> [= ->]]|intros [= -> ->]]; auto.
  - revert fs2; induction IH as [|[k x] fs Hx _ IHfs]; intros [|[k2 y] fs2];
      try (split; [discriminate|intros [=]]); try (split; intros; reflexivity).
    cbn in Hx.
    rewrite !andb_true_iff, String.eqb_eq, Hx, IHfs.
    split; [intros [[-> ->] [= ->]]|intros [= -> -> ->]]; auto.
Qed.

Lemma json_eqb_refl (a : json) : json_eqb a a = true.
Proof. now apply json_eqb_eq. Qed.

Lemma assoc_set_field_eq (k : string) (v : json) (r : document) :
  assoc k (JSON.set_field k v r) = Some v.
Proof.
  induction r as [|[k' v'] r IH]; cbn.
  - now rewrite String.eqb_refl.
  - destruct (String.eqb_spec k k') as [->|N]; cbn.
    + now rewrite String.eqb_refl.
    + apply String.eqb_neq in N. now rewrite N.
Qed.

Lemma assoc_set_field_ne (k k' : string) (v : json) (r : document) :
  k <> k' -> assoc k' (JSON.set_field k v r) = assoc k' r.
Proof.
  intros N. induction r as [|[k0 v0] r IH]; cbn.
  - apply not_eq_sym, String.eqb_neq in N. now rewrite N.
  - destruct (String.eqb_spec k k0) as [->|N0]; cbn.
    + apply not_eq_sym, String.eqb_neq in N. now rewrite N.
    + destruct (String.eqb k' k0); auto.
Qed.

(** An update under a key the filter does not mention leaves the match
    as it was. *)
Lemma matches_set_field (f : document) (k : string) (v : json) (r : document) :
  ~ In k (List.map fst f) -> matches f (JSON.set_field k v r) = matches f r.
Proof.
  unfold matches. induction f as [|[k' v'] f IH]; cbn; [reflexivity|].
  intros N. rewrite assoc_set_field_ne by (intros E; apply N; left; congruence).
  rewrite IH by (intros E; apply N; right; exact E). reflexivity.
Qed.

Lemma setFields_single (k : string) (v : json) (r : document) :
  setFields [(k, v)] r = JSON.set_field k v r.
Proof. reflexivity. Qed.

Section UpdateOne.
Variables f g u : document.

(** The first record a coarser filter [g] finds after an upsert by [f],
    when that record, if there was one, is one [f] matches. *)
Lemma find_updateOne (c : collection) :
  (forall r, matches f r = true -> matches g r = true) ->
  (forall r, matches g (setFields u r) = matches g r) ->
  matches g (setFields u f) = true ->
  (forall r, List.find (matches g) c = Some r -> matches f r = true) ->
  List.find (matches g) (updateOne f u c)
  = Some (setFields u (default f (List.find (matches g) c))).
Proof.
  intros Hfg Hu Hf. induction c as [|r c IH]; intros Hfirst; cbn.
  - now rewrite Hf.
  - destruct (matches f r) eqn:Mf; cbn.
    + rewrite Hu, (Hfg _ Mf). reflexivity.
    + destruct (matches g r) eqn:Mg.
      * specialize (Hfirst r). cbn in Hfirst. rewrite Mg in Hfirst.
        rewrite Hfirst in Mf by reflexivity. discriminate.
      * apply IH. intros r' E. apply Hfirst. cbn. now rewrite Mg.
Qed.

(** An upsert by [f] is invisible to a filter [g] that no record can
    match together with [f]. *)
Lemma find_updateOne_other (c : collection) :
  (forall r, matches f r = true -> matches g r = false) ->
  (forall r, matches g (setFields u r) = matches g r) ->
  matches g (setFields u f) = false ->
  List.find (matches g) (updateOne f u c) = List.find (matches g) c.
Proof.
  intros Hfg Hu Hf. induction c as [|r c IH]; cbn.
  - now rewrite Hf.
  - destruct (matches f r) eqn:Mf; cbn.
    + now rewrite Hu, (Hfg _ Mf).
    + destruct (matches g r); auto.
Qed.

Lemma length_updateOne (c : collection) (r : document) :
  List.find (matches f) c = Some r ->
  List.length (updateOne f u c) = List.length c.
Proof.
  revert r; induction c as [|r0 c IH]; intros r; cbn; [discriminate|].
  destruct (matches f r0); cbn; [reflexivity|].
  intros E. f_equal. eauto.
Qed.
End UpdateOne.

Lemma collectionOf_insert (db : gmap string collection) (name : string) (c : collection) :
  collectionOf (<[name := c]> db) name = c.
Proof. unfold collectionOf, database. now rewrite lookup_insert_eq. Qed.

Lemma collectionOf_insert_ne (db : gmap string collection) (name name' : string)
    (c : collection) :
  name <> name' -> collectionOf (<[name := c]> db) name' = collectionOf db name'.
Proof. intros N. unfold collectionOf, database. now rewrite lookup_insert_ne. Qed.

Lemma completionKey_self (c : CacheObj) :
  matches (completionKey c) (completionKey c) = true.
Proof.
  unfold matches, completionKey; cbn.
  now rewrite String.eqb_refl, Z.eqb_refl, String.eqb_refl, json_eqb_refl.
Qed.

Lemma completionKey_update (c : CacheObj) (v : json) (r : document) :
  matches (completionKey c) (setFields [("completion", v)] r)
  = matches (completionKey c) r.
Proof.
  rewrite setFields_single. apply matches_set_field.
  cbn. intros [E|[E|[E|[E|[]]]]]; discriminate.
Qed.

(** What a record that matches the key of a completion request holds. *)
Lemma completionKey_matches (c : CacheObj) (r : document) :
  matches (completionKey c) r = true <->
  assoc "hash" r = Some (JStr (hash c)) /\
  assoc "tempKey" r = Some (JNum (tempKey c)) /\
  assoc "prompt" r = Some (JStr (prompt c)) /\
  assoc "opt" r = Some (cleanOpt c).
Proof.
  unfold matches, completionKey; cbn.
  rewrite !andb_true_iff.
  destruct (assoc "hash" r) as [h|], (assoc "tempKey" r) as [t|],
    (assoc "prompt" r) as [p|], (assoc "opt" r) as [o|];
    rewrite ?json_eqb_eq;
    (split; [intros (H1 & H2 & H3 & H4 & _)|intros (H1 & H2 & H3 & H4)]);
    try discriminate; repeat split; congruence.
Qed.

Lemma completionKey_exclusive (a b : CacheObj) (r : document) :
  hash a <> hash b \/ tempKey a <> tempKey b \/
  prompt a <> prompt b \/ cleanOpt a <> cleanOpt b ->
  matches (completionKey a) r = true -> matches (completionKey b) r = false.
Proof.
  intros D Ma. apply completionKey_matches in Ma as (H1 & H2 & H3 & H4).
  destruct (matches (completionKey b) r) eqn:Mb; [|reflexivity].
  apply completionKey_matches in Mb as (G1 & G2 & G3 & G4).
  exfalso. destruct D as [D|[D|[D|D]]]; apply D; congruence.
Qed.

Lemma append_inj (s a b : string) : s +:+ a = s +:+ b -> a = b.
Proof. induction s as [|c s IH]; cbn; [auto|]. intros [= E]. auto. Qed.

(** The record the lookup finds after an upsert under the same key. *)
Lemma upsert_then_find (c : CacheObj) (v : json) (coll : collection) :
  List.find (matches (completionKey c))
            (updateOne (completionKey c) [("completion", v)] coll)
  = Some (setFields [("completion", v)]
            (default (completionKey c) (List.find (matches (completionKey c)) coll))).
Proof.
  apply find_updateOne; auto using completionKey_update.
  - rewrite completionKey_update. apply completionKey_self.
  - intros r E. now apply List.find_some in E.
Qed.

Lemma add_then_get (db : gmap string collection) (c : CacheObj) (v : json) :
  getCacheCompletion (addCacheCompletion db c v) c = Some v.
Proof.
  unfold getCacheCompletion, addCacheCompletion, findOne.
  rewrite collectionOf_insert.
  change [("hash", JStr (hash c)); ("tempKey", JNum (tempKey c));
          ("prompt", JStr (prompt c)); ("opt", cleanOpt c)]
    with (completionKey c).
  rewrite upsert_then_find, setFields_single. apply assoc_set_field_eq.
Qed.

(** X1: a completion that was added is the one the lookup of the same
    request returns, whatever the database held before. *)
Theorem completion_add_then_get (db : database) (c : CacheObj) (v : json) :
  getCacheCompletion (addCacheCompletion db c v) c = Some v.
Proof. apply add_then_get. Qed.

(** X2: completion requests that differ in the model, the hash, the
    partition key, the prompt or the options do not collide: adding for
    one leaves the lookup of the other as it was. *)
Theorem completion_keys_do_not_collide
    (db : database) (a b : CacheObj) (v : json) :
  differ a b ->
  getCacheCompletion (addCacheCompletion db a v) b = getCacheCompletion db b.
Proof.
  intros D. unfold getCacheCompletion, addCacheCompletion, findOne.
  change [("hash", JStr (hash b)); ("tempKey", JNum (tempKey b));
          ("prompt", JStr (prompt b)); ("opt", cleanOpt b)]
    with (completionKey b).
  change [("hash", JStr (hash a)); ("tempKey", JNum (tempKey a));
          ("prompt", JStr (prompt a)); ("opt", cleanOpt a)]
    with (completionKey a).
  destruct (String.eqb_spec (model a) (model b)) as [E|N].
  - destruct D as [D|D]; [contradiction|].
    unfold getCacheCollectionName. rewrite E, collectionOf_insert.
    rewrite find_updateOne_other; auto using completionKey_update.
    + intros r. now apply completionKey_exclusive.
    + rewrite completionKey_update.
      apply (completionKey_exclusive a b); auto using completionKey_self.
  - rewrite collectionOf_insert_ne; [reflexivity|].
    unfold getCacheCollectionName. intros E. now apply append_inj, append_inj in E.
Qed.

Lemma completion_keys_do_not_collide_witness :
  getCacheCompletion (addCacheCompletion ∅ request_small (JStr "a")) request_other_key
  = getCacheCompletion ∅ request_other_key.
Proof.
  apply completion_keys_do_not_collide.
  right; right; left. vm_compute. discriminate.
Defined.

(** X3: adding again for a request that has a record replaces the
    completion in place: the collection keeps its number of records. *)
Theorem completion_upsert_in_place (db : database) (c : CacheObj) (v1 v2 : json) :
  let db1 := addCacheCompletion db c v1 in
  let db2 := addCacheCompletion db1 c v2 in
  List.length (completions db2 c) = List.length (completions db1 c) /\
  getCacheCompletion db2 c = Some v2.
Proof.
  intros db1 db2. split; [|apply add_then_get].
  subst db2. unfold completions, addCacheCompletion at 1.
  rewrite collectionOf_insert.
  change [("hash", JStr (hash c)); ("tempKey", JNum (tempKey c));
          ("prompt", JStr (prompt c)); ("opt", cleanOpt c)]
    with (completionKey c).
  subst db1. unfold addCacheCompletion.
  rewrite collectionOf_insert.
  change [("hash", JStr (hash c)); ("tempKey", JNum (tempKey c));
          ("prompt", JStr (prompt c)); ("opt", cleanOpt c)]
    with (completionKey c).
  eapply length_updateOne. apply upsert_then_find.
Qed.

Lemma embeddingKey_update (g : document) (v : json) (r : document) :
  ~ In "embedding" (List.map fst g) ->
  matches g (setFields [("embedding", v)] r) = matches g r.
Proof. intros N. rewrite setFields_single. now apply matches_set_field. Qed.

(** X4: an embedding that was added is the one the lookup of the same
    request returns, provided the first record stored for the prompt, if
    there is one, was stored with the options of the request. *)
Theorem embedding_add_then_get (db : database) (c : CacheObj) (v : json) :
  (forall r, findOne (promptKey c) (embeddings db c) = Some r ->
             matches (embeddingKey c) r = true) ->
  getCacheEmbedding (addCacheEmbedding db c v) c = Some v.
Proof.
  intros H. unfold getCacheEmbedding, addCacheEmbedding, findOne.
  rewrite collectionOf_insert.
  change [("prompt", JStr (prompt c)); ("opt", cleanOpt c)] with (embeddingKey c).
  change [("prompt", JStr (prompt c))] with (promptKey c).
  rewrite find_updateOne.
  - rewrite setFields_single. apply assoc_set_field_eq.
  - intros r. unfold matches, embeddingKey, promptKey; cbn.
    rewrite !andb_true_iff. tauto.
  - intros r. apply embeddingKey_update. cbn. intuition discriminate.
  - rewrite embeddingKey_update by (cbn; intuition discriminate).
    unfold matches, promptKey, embeddingKey; cbn.
    now rewrite String.eqb_refl.
  - exact H.
Qed.

Lemma embedding_add_then_get_witness :
  getCacheEmbedding
    (addCacheEmbedding (addCacheEmbedding ∅ request_small vector_small)
                       request_small vector_large)
    request_small
  = Some vector_large.
Proof.
  apply embedding_add_then_get.
  intros r E. vm_compute in E. injection E as <-. vm_compute. reflexivity.
Defined.

(** X5: completions and embeddings live in collections of their own:
    adding one kind never changes a lookup of the other. *)
Theorem kinds_are_separate (db : database) (a b : CacheObj) (v : json) :
  getCacheCompletion (addCacheEmbedding db a v) b = getCacheCompletion db b /\
  getCacheEmbedding (addCacheCompletion db a v) b = getCacheEmbedding db b.
Proof.
  split.
  - unfold getCacheCompletion, addCacheEmbedding.
    rewrite collectionOf_insert_ne; [reflexivity|].
    unfold getCacheCollectionName; cbn. discriminate.
  - unfold getCacheEmbedding, addCacheCompletion.
    rewrite collectionOf_insert_ne; [reflexivity|].
    unfold getCacheCollectionName; cbn. discriminate.
Qed.

End MongoDBCacheLaws.

(** ** Laws of the request loop *)

Module PlainLaws.
Import JSString JS OpenAI PlainFacts.

Lemma whenTruthy_Some (v : value) (j : json) :
  whenTruthy v = Some j -> v = Some j /\ truthy (Some j) = true.
Proof.
  unfold whenTruthy. destruct (truthy v) eqn:T; [|discriminate].
  intros ->. auto.
Qed.

(** What the [try] body returns: [null], the body itself in raw mode, or a
    truthy completion that the listener has been given. *)
Lemma tryBody_returned (useRawApi : bool) (j v : json) (calls : list json) :
  tryBody useRawApi j = Returned v calls ->
  (v = JNull /\ calls = []) \/
  (useRawApi = true /\ v = j /\ calls = []) \/
  (useRawApi = false /\ truthy (Some v) = true /\ calls = [v]).
Proof.
  unfold tryBody.
  destruct (prop (Some j) "error") as [e|err]; [discriminate|].
  destruct (truthy err); [discriminate|].
  destruct (readChoices useRawApi j) as [e|a] eqn:R; [discriminate|].
  intros ->. revert R. unfold readChoices, bind, and_then, completion.
  repeat match goal with
         | |- context [match ?x with _ => _ end] =>
             let H := fresh "H" in destruct x eqn:H; try discriminate
         end;
    intros [= <- <-];
    repeat match goal with
           | H : whenTruthy _ = Some _ |- _ => apply whenTruthy_Some in H as [? ?]
           end; auto.
Qed.

(** X6: the spec's retry property.  When the first attempt ends in an
    exception and the second yields a completion, the call returns that
    completion after two fetches; the caller sees no error, only the
    warnings of the first attempt are on the console. *)
Theorem retry_returns_second_attempt
    (reqJson : json) (useRawApi : bool) (fetch : nat -> FetchResult)
    (e : thrown) (w : list warning) (v : json) (calls : list json) :
  attemptOf useRawApi (fetch 0%nat) = Raised e w ->
  attemptOf useRawApi (fetch 1%nat) = Returned v calls ->
  let r := plainRequest reqJson useRawApi fetch in
  result r = Return v /\ listener r = calls /\ fetches r = 2%nat /\ console r = w.
Proof.
  intros A0 A1 r; subst r. rewrite plainRequest_cases, A0, A1. auto.
Qed.

Lemma retry_returns_second_attempt_witness :
  result (plainRequest request false
            (net (FetchFail (FetchError "ECONNRESET")) (FetchBody ok_body)))
  = Return (JStr "Hello").
Proof.
  exact (proj1 (retry_returns_second_attempt request false
                  (net (FetchFail (FetchError "ECONNRESET")) (FetchBody ok_body))
                  _ _ _ _ eq_refl eq_refl)).
Defined.

(** X7: a call makes one fetch or two, never more; it makes one exactly
    when the first attempt returns, and then nothing is written to the
    console. *)
Theorem fetch_count (reqJson : json) (useRawApi : bool) (fetch : nat -> FetchResult) :
  let r := plainRequest reqJson useRawApi fetch in
  (fetches r = 1%nat \/ fetches r = 2%nat) /\
  (fetches r = 1%nat <->
   exists v calls, attemptOf useRawApi (fetch 0%nat) = Returned v calls) /\
  (fetches r = 1%nat -> console r = []).
Proof.
  intros r; subst r. rewrite plainRequest_cases.
  destruct (attemptOf useRawApi (fetch 0%nat)) as [v c|e0 w0]; cbn.
  - repeat split; eauto.
  - destruct (attemptOf useRawApi (fetch 1%nat)); cbn;
      (split; [auto|split; [split; [discriminate|intros (? & ? & [=])]|discriminate]]).
Qed.

(** X8: what a plain call returns is [null], or, in raw mode, a response
    body as it was received, the listener not being called, or else a
    truthy completion that the listener has been given exactly once.  An
    empty completion is never returned as such. *)
Theorem plain_result_shape
    (reqJson : json) (useRawApi : bool) (fetch : nat -> FetchResult) (v : json) :
  let r := plainRequest reqJson useRawApi fetch in
  result r = Return v ->
  (v = JNull /\ listener r = []) \/
  (useRawApi = true /\ listener r = [] /\
   (fetch 0%nat = FetchBody v \/ fetch 1%nat = FetchBody v)) \/
  (useRawApi = false /\ truthy (Some v) = true /\ listener r = [v]).
Proof.
  intros r; subst r. rewrite plainRequest_cases.
  destruct (attemptOf useRawApi (fetch 0%nat)) as [v0 c0|e0 w0] eqn:A0; cbn.
  - intros [= ->]. unfold attemptOf in A0.
    destruct (fetch 0%nat) as [|j]; [discriminate|].
    apply tryBody_returned in A0 as [[-> ->]|[(-> & -> & ->)|(-> & T & ->)]]; auto 10.
  - destruct (attemptOf useRawApi (fetch 1%nat)) as [v1 c1|e1 w1] eqn:A1; cbn;
      [|discriminate].
    intros [= ->]. unfold attemptOf in A1.
    destruct (fetch 1%nat) as [|j]; [discriminate|].
    apply tryBody_returned in A1 as [[-> ->]|[(-> & -> & ->)|(-> & T & ->)]]; auto 10.
Qed.

Lemma plain_result_shape_witness :
  (JStr "Hello" = JNull /\
   listener (plainRequest request false (net (FetchBody ok_body) (FetchBody ok_body))) = []) \/
  (false = true /\
   listener (plainRequest request false (net (FetchBody ok_body) (FetchBody ok_body))) = [] /\
   (net (FetchBody ok_body) (FetchBody ok_body) 0%nat = FetchBody (JStr "Hello") \/
    net (FetchBody ok_body) (FetchBody ok_body) 1%nat = FetchBody (JStr "Hello"))) \/
  (false = false /\ truthy (Some (JStr "Hello")) = true /\
   listener (plainRequest request false (net (FetchBody ok_body) (FetchBody ok_body)))
   = [JStr "Hello"]).
Proof.
  exact (plain_result_shape request false (net (FetchBody ok_body) (FetchBody ok_body))
           (JStr "Hello") eq_refl).
Defined.

End PlainLaws.

(** ** Laws of the stream decoder *)

Module StreamLaws.
Import JSString JS OpenAI StreamFacts StreamVocabulary.

Lemma append_nil_r (s : string) : s +:+ "" = s.
Proof.
  induction s as [|c s IH]; [reflexivity|].
  change (String c (s +:+ "") = String c s). now rewrite IH.
Qed.

Lemma append_assoc (a b c : string) : (a +:+ b) +:+ c = a +:+ (b +:+ c).
Proof.
  induction a as [|x a IH]; [reflexivity|].
  change (String x ((a +:+ b) +:+ c) = String x (a +:+ (b +:+ c))). now rewrite IH.
Qed.

Lemma join_cons (a : string) (l : list string) :
  join "" (a :: l) = a +:+ join "" l.
Proof. destruct l; [cbn; now rewrite append_nil_r|reflexivity]. Qed.

Lemma join_snoc (l : list string) (x : string) :
  join "" (l ++ [x]) = join "" l +:+ x.
Proof.
  induction l as [|a l IH]; [reflexivity|].
  change ((a :: l) ++ [x]) with (a :: (l ++ [x])).
  now rewrite !join_cons, IH, append_assoc.
Qed.

Lemma textOf_snoc (deltas : list json) (tok : json) :
  textOf (deltas ++ [tok]) = textOf deltas +:+ toString tok.
Proof. unfold textOf. rewrite List.map_app. apply join_snoc. Qed.

Lemma tokenEvents_snoc (evs : list string) (ev : string) :
  tokenEvents (evs ++ [ev])
  = tokenEvents evs ++ (if isSentinel ev then [] else [ev]).
Proof.
  unfold tokenEvents. rewrite List.filter_app. cbn.
  now destruct (isSentinel ev).
Qed.

Section Decoder.
Variable parse : string -> option json.

(** One data event taken and handled without a throw keeps the
    variables coherent. *)
Lemma handleEvent_coherent (st st1 st2 : StreamSt) (ev : string) :
  coherent st ->
  dequeue st = Some (ev, st1) ->
  handleEvent parse ev st1 = Next st2 ->
  coherent st2.
Proof.
  intros (Ht & Hl & He & Hn) D.
  assert (parsedRes st1 = parsedRes st /\ emitted st1 = emitted st /\
          log st1 = log st /\ events st1 = events st ++ [ev]) as (P1 & E1 & L1 & V1).
  { unfold dequeue in D.
    destruct (indexOf (rawBuffer st) NLNL) as [[|p]|]; try discriminate.
    apply (inj Some) in D. apply pair_equal_spec in D as [<- <-]. auto. }
  unfold handleEvent.
  destruct (startsWith ev "error:") eqn:Er; [discriminate|].
  destruct (startsWith ev "data: [DONE]") eqn:Sn.
  - intros [= <-]. unfold coherent. rewrite P1, E1, L1, V1, tokenEvents_snoc.
    rewrite (Sn : isSentinel ev = true), app_nil_r.
    repeat split; auto. apply Forall_app; split; auto.
    constructor; [|constructor]. unfold accepted, isError, isSentinel.
    now rewrite Er, Sn.
  - destruct (startsWith ev "data: {") eqn:Js; [|discriminate].
    destruct (parse _) as [dataObj|]; [|discriminate].
    destruct (tokenOf dataObj) as [e|tok]; [discriminate|].
    intros [= <-]. unfold coherent, emit; cbn [parsedRes emitted log events].
    rewrite P1, E1, L1, V1, tokenEvents_snoc, textOf_snoc, Ht.
    rewrite (Sn : isSentinel ev = false), !length_app, Hn. cbn.
    repeat split; auto. apply Forall_app; split; auto.
    constructor; [|constructor]. unfold accepted, isError, isSentinel, isJson.
    now rewrite Er, Sn, Js.
Qed.

Lemma processEvents_coherent (fuel : nat) (st st' : StreamSt) :
  coherent st -> processEvents parse fuel st = Next st' -> coherent st'.
Proof.
  revert st; induction fuel as [|fuel IH]; intros st C; cbn;
    destruct (dequeue st) as [[ev st1]|] eqn:D; try (intros [= <-]; exact C).
  destruct (handleEvent parse ev st1) as [st2|] eqn:H; [|discriminate].
  apply IH. eapply handleEvent_coherent; eauto.
Qed.

Lemma onRead_coherent (value : option string) (st st' : StreamSt) :
  coherent st -> onRead parse value st = Next st' -> coherent st'.
Proof. intros C. unfold onRead, drain. now apply processEvents_coherent. Qed.

Lemma readLoop_coherent (reads : list ReadResult) (st st' : StreamSt) :
  coherent st -> readLoop parse reads st = Next st' -> coherent st'.
Proof.
  revert st; induction reads as [|[value done|e] reads IH]; intros st C;
    cbn [readLoop].
  - now apply onRead_coherent.
  - destruct (onRead parse value st) as [st1|] eqn:R; [|discriminate].
    apply (onRead_coherent _ _ _ C) in R.
    destruct (isNone value || done); [intros [= <-]; exact R|].
    now apply IH.
  - discriminate.
Qed.

Lemma decode_coherent (reads : list ReadResult) (st : StreamSt) :
  decode parse reads = Next st -> coherent st.
Proof.
  unfold decode. fold initial.
  destruct (readLoop parse reads initial) as [st1|] eqn:R; [|discriminate].
  apply readLoop_coherent in R; [|repeat split; constructor].
  unfold finish. destruct (0 <? _)%nat; [discriminate|].
  intros [= <-]. exact R.
Qed.
End Decoder.

(** X9: the text a streaming call returns is the concatenation, in
    order, of the tokens it handed to the listener. *)
Theorem streamed_text_is_the_deltas
    (parse : string -> option json) (reads : list ReadResult) (v : json) :
  let r := streamRequest parse (inr reads) in
  result r = Return v -> v = JStr (textOf (listener r)).
Proof.
  intros r; subst r. unfold streamRequest.
  destruct (decode parse reads) as [st|e st] eqn:D; cbn; [|discriminate].
  apply decode_coherent in D as (Ht & _). intros [= <-]. now rewrite Ht.
Qed.

Lemma streamed_text_is_the_deltas_witness :
  JStr "Hi" = JStr (textOf (listener (streamRequest JSON.parse
                      (inr [Read (Some hi_stream) false; Read None true])))).
Proof.
  exact (streamed_text_is_the_deltas JSON.parse
           [Read (Some hi_stream) false; Read None true] (JStr "Hi") eq_refl).
Defined.

(** X10: a streaming call that returns has written nothing to the
    console, has taken only sentinel and JSON blocks off the stream, and
    has called the listener once for every block that is not the
    sentinel. *)
Theorem streamed_success_is_clean
    (parse : string -> option json) (reads : list ReadResult) (v : json) :
  let r := streamRequest parse (inr reads) in
  result r = Return v ->
  console r = [] /\
  Forall accepted (decodedEvents parse reads) /\
  List.length (listener r) = List.length (tokenEvents (decodedEvents parse reads)).
Proof.
  intros r; subst r. unfold streamRequest, decodedEvents.
  destruct (decode parse reads) as [st|e st] eqn:D; cbn; [|discriminate].
  apply decode_coherent in D as (_ & Hl & He & Hn). auto.
Qed.

Lemma streamed_success_is_clean_witness :
  console (streamRequest JSON.parse
             (inr [Read (Some hi_stream) false; Read None true])) = [].
Proof.
  exact (proj1 (streamed_success_is_clean JSON.parse
                  [Read (Some hi_stream) false; Read None true] (JStr "Hi") eq_refl)).
Defined.

Lemma stripNL_app (nls s : string) :
  stripNL nls = "" -> stripNL (nls +:+ s) = stripNL s.
Proof.
  induction nls as [|c nls IH]; [reflexivity|].
  change (String c nls +:+ s) with (String c (nls +:+ s)). cbn [stripNL].
  destruct (Ascii.eqb c (ascii_of_nat 10)); [exact IH|discriminate].
Qed.

(** X11: newlines at the head of the stream are dropped: a first chunk
    that begins with line feeds decodes as the chunk without them. *)
Theorem leading_newlines_are_dropped
    (parse : string -> option json) (nls chunk : string) (done : bool)
    (rest : list ReadResult) :
  stripNL nls = "" ->
  streamRequest parse (inr (Read (Some (nls +:+ chunk)) done :: rest))
  = streamRequest parse (inr (Read (Some chunk) done :: rest)).
Proof.
  intros N. unfold streamRequest, decode. cbn [readLoop].
  unfold onRead; cbn [rawBuffer].
  change ("" +:+ (nls +:+ chunk)) with (nls +:+ chunk).
  change ("" +:+ chunk) with chunk.
  now rewrite (stripNL_app _ _ N).
Qed.

Lemma leading_newlines_are_dropped_witness :
  streamRequest JSON.parse
    (inr [Read (Some (NLNL +:+ hi_stream)) false; Read None true])
  = streamRequest JSON.parse (inr [Read (Some hi_stream) false; Read None true]).
Proof.
  exact (leading_newlines_are_dropped JSON.parse NLNL hi_stream false
           [Read None true] eq_refl).
Defined.

End StreamLaws.

(** ** Laws of the bridge *)

Module AiBridgeLaws.
Import JSString JS AiBridge AiBridgeVocabulary.

Local Open Scope Q_scope.

(** X12: a bridge that was constructed keeps the configuration, has at
    least one provider key, and holds under each key either the key it
    was given or [null], never a value that equals the empty string. *)
Theorem constructed_keys (cfg : Config) (b : Bridge) :
  constructor cfg = inr b ->
  config b = cfg /\
  (nullish (_openai_key b) = false \/ nullish (_anthropic_key b) = false) /\
  looseEqEmpty (_openai_key b) = false /\
  looseEqEmpty (_anthropic_key b) = false /\
  (_openai_key b = provider_openai cfg \/ _openai_key b = Some JNull) /\
  (_anthropic_key b = provider_anthropic cfg \/ _anthropic_key b = Some JNull).
Proof.
  unfold constructor, nullOut.
  destruct (nullish (provider_openai cfg) || looseEqEmpty (provider_openai cfg)) eqn:Ho;
    destruct (nullish (provider_anthropic cfg) || looseEqEmpty (provider_anthropic cfg))
      eqn:Ha; cbn [nullish andb];
    try discriminate;
    repeat match goal with
           | H : _ || _ = false |- _ => apply orb_false_iff in H as [? ?]
           end;
    repeat match goal with
           | |- context [nullish ?k] =>
               match goal with H : nullish k = false |- _ => rewrite H end
           end;
    cbn [andb]; intros [= <-]; cbn; auto 10.
Qed.

Lemma constructed_keys_witness :
  exists b, constructor keyedConfig = inr b /\ _anthropic_key b = Some JNull.
Proof.
  eexists. split; [reflexivity|].
  destruct (constructed_keys keyedConfig _ eq_refl) as (_ & _ & _ & _ & _ & [H|H]);
    [discriminate H|exact H].
Defined.

(** X13: what [normalizeCompletionOptObject] returns names a model that
    is neither empty nor the alias [gpt-4e], has a token budget that is no
    longer [auto], above 50 when it was computed, and keeps the
    temperature and the other options. *)
Theorem normalized_options
    (opt opt' : Options) (promptTokenCount : Z) (messagesArr : json) :
  normalizeCompletionOptObject opt promptTokenCount messagesArr = inr opt' ->
  (exists m, model opt' = Some m /\ m <> "" /\ m <> "gpt-4e") /\
  max_tokens opt' <> Auto /\
  (max_tokens opt = Auto -> forall k, max_tokens opt' = Tokens k -> (50 < k)%Z) /\
  (max_tokens opt <> Auto -> max_tokens opt' = max_tokens opt) /\
  temperature opt' = temperature opt /\
  total_tokens opt' = total_tokens opt /\
  rest opt' = rest opt.
Proof.
  unfold normalizeCompletionOptObject.
  set (model0 := match model opt with
                 | Some m => if String.eqb m "" then "gpt-3.5-turbo-1106" else m
                 | None => "gpt-3.5-turbo-1106"
                 end).
  set (model1 := if String.eqb model0 "gpt-4e"
                 then if (promptTokenCount <? 14000)%Z
                      then "gpt-3.5-turbo-1106" else "gpt-4-1106-preview"
                 else model0).
  assert (model0 <> "") as N0.
  { subst model0. destruct (model opt) as [m|]; [|discriminate].
    destruct (String.eqb_spec m ""); [discriminate|assumption]. }
  assert (model1 <> "" /\ model1 <> "gpt-4e") as [N1 N2].
  { subst model1. destruct (String.eqb_spec model0 "gpt-4e").
    - destruct (promptTokenCount <? 14000)%Z; split; discriminate.
    - auto. }
  clearbody model1. clear model0 N0.
  destruct (max_tokens opt) eqn:M.
  - destruct (if nullish (Some messagesArr) then Some 0%Z else lengthOf messagesArr)
      as [len|].
    + match goal with
      | |- context [(?x <=? 50)%Z] => destruct (Z.leb_spec x 50); [discriminate|]
      end.
      intros [= <-]; cbn. repeat split; eauto; try discriminate; try contradiction.
      intros _ k [= <-]. assumption.
    + intros [= <-]; cbn. repeat split; eauto; try discriminate; try contradiction.
  - intros [= <-]; cbn. repeat split; eauto; try discriminate.
  - intros [= <-]; cbn. repeat split; eauto; try discriminate.
Qed.

Lemma normalized_options_witness : (50 < 108000)%Z.
Proof.
  exact (proj1 (proj2 (proj2
           (normalized_options gpt4e
              {| model := Some "gpt-4-1106-preview"; max_tokens := Tokens 108000;
                 total_tokens := None; temperature := Number (Finite 0); rest := [] |}
              20000 (JArr []) eq_refl))) eq_refl 108000%Z eq_refl).
Defined.

Lemma normalized_model_budget
    (opt opt' : Options) (promptTokenCount : Z) (messagesArr : json) :
  normalizeCompletionOptObject opt promptTokenCount messagesArr = inr opt' ->
  (exists m, model opt' = Some m /\ String.eqb m "" = false /\
             String.eqb m "gpt-4e" = false) /\
  max_tokens opt' <> Auto.
Proof.
  unfold normalizeCompletionOptObject.
  set (model0 := match model opt with
                 | Some m => if String.eqb m "" then "gpt-3.5-turbo-1106" else m
                 | None => "gpt-3.5-turbo-1106"
                 end).
  assert (String.eqb model0 "" = false) as N0.
  { subst model0. destruct (model opt) as [m|]; [|reflexivity].
    destruct (String.eqb m "") eqn:E; [reflexivity|exact E]. }
  set (model1 := if String.eqb model0 "gpt-4e"
                 then if (promptTokenCount <? 14000)%Z
                      then "gpt-3.5-turbo-1106" else "gpt-4-1106-preview"
                 else model0).
  assert (String.eqb model1 "" = false /\ String.eqb model1 "gpt-4e" = false)
    as [N1 N2].
  { subst model1. destruct (String.eqb model0 "gpt-4e") eqn:E.
    - destruct (promptTokenCount <? 14000)%Z; split; reflexivity.
    - auto. }
  clearbody model1. clear model0 N0.
  repeat match goal with
         | |- context [match ?x with _ => _ end] => destruct x eqn:?
         end; try discriminate; intros [= <-]; cbn;
    (split; [eauto|congruence]).
Qed.

(** X14: options that were normalised are a fixed point: normalising
    them again, for any prompt, returns them unchanged and never throws. *)
Theorem normalize_again
    (opt opt' : Options) (promptTokenCount : Z) (messagesArr : json) :
  normalizeCompletionOptObject opt promptTokenCount messagesArr = inr opt' ->
  forall (n : Z) (messages : json),
    normalizeCompletionOptObject opt' n messages = inr opt'.
Proof.
  intros H n messages.
  destruct (normalized_model_budget _ _ _ _ H) as ((m & Em & N1 & N2) & NA).
  unfold normalizeCompletionOptObject. rewrite Em, N1, N2.
  destruct opt' as [mo mt tt te re]; cbn in *. subst mo.
  destruct mt; [contradiction|reflexivity|reflexivity].
Qed.

Lemma normalize_again_witness :
  normalizeCompletionOptObject
    {| model := Some "gpt-4-1106-preview"; max_tokens := Tokens 108000;
       total_tokens := None; temperature := Number (Finite 0); rest := [] |} 5 (JArr [JNull])
  = inr {| model := Some "gpt-4-1106-preview"; max_tokens := Tokens 108000;
           total_tokens := None; temperature := Number (Finite 0); rest := [] |}.
Proof.
  exact (normalize_again gpt4e _ 20000 (JArr []) eq_refl 5 (JArr [JNull])).
Defined.

Lemma normalize_temperature
    (opt opt' : Options) (promptTokenCount : Z) (messagesArr : json) :
  normalizeCompletionOptObject opt promptTokenCount messagesArr = inr opt' ->
  temperature opt' = temperature opt.
Proof.
  unfold normalizeCompletionOptObject.
  repeat match goal with
         | |- context [match ?x with _ => _ end] => destruct x
         end; try discriminate; intros [= <-]; reflexivity.
Qed.

(** With a key given, or at temperature 0, the partition key is the
    same for every answer of the random source. *)
Lemma generateTempKey_stable (tempKey : Z) (t m : setting) (r1 r2 : Q) :
  (0 <= tempKey)%Z \/ (exists q, t = Number (Finite q) /\ q == 0) ->
  generateTempKey tempKey t m r1 = generateTempKey tempKey t m r2.
Proof.
  unfold generateTempKey. intros [K|(q & -> & T)].
  - destruct (Z.ltb_spec tempKey 0); [lia|reflexivity].
  - destruct (tempKey <? 0)%Z; [|reflexivity].
    cbn [parseFloat].
    destruct (parseFloat m) as [|y|positive]; cbn [times floorLeZero].
    + reflexivity.
    + assert (Qfloor (q * y) = 0%Z) as ->; [|reflexivity].
      assert (q * y == 0) as E by (rewrite T; ring).
      now rewrite E.
    + apply Qeq_bool_iff in T. rewrite T. reflexivity.
Qed.

Section Repeat.
Variable Cache : Type.
Variable getCacheChatCompletion :
  Cache -> string -> Options -> json -> string -> Key -> value * Cache.
Variable addCacheChatCompletion :
  Cache -> string -> json -> Options -> json -> string -> Key -> Cache.
Variable getTokenCount : json -> Z.

Lemma prepare_stable (self : Bridge) (messages : json) (promptOpts : PromptOpts)
    (tempKey : Z) (r1 r2 : Q) :
  keyed self promptOpts tempKey ->
  prepare getTokenCount r1 self messages promptOpts tempKey
  = prepare getTokenCount r2 self messages promptOpts tempKey.
Proof.
  intros K. unfold prepare.
  destruct (normalizeMessages messages) as [e|m]; [reflexivity|].
  destruct (normalizeCompletionOptObject _ _ _) as [e|opt] eqn:N; [reflexivity|].
  do 2 f_equal. apply generateTempKey_stable.
  destruct K as [K|K]; [now left|right].
  now rewrite (normalize_temperature _ _ _ _ N).
Qed.

Variable lawfulCache : lawful getCacheChatCompletion addCacheChatCompletion.

(** The first call missed the cache and returned [done]; the state of
    the second call, whatever its provider and random source are. *)
Lemma second_lookup
    (callProvider callProvider' : Provider -> value -> Options -> json -> ProviderRun)
    (random random' : Q)
    (self : Bridge) (c : Cache) (messages : json) (promptOpts : PromptOpts)
    (cacheGrp : string) (tempKey : Z) (done : Completion) :
  keyed self promptOpts tempKey ->
  let call := getChatCompletion Cache getCacheChatCompletion addCacheChatCompletion
                getTokenCount callProvider random
                self c messages promptOpts cacheGrp tempKey in
  returned Cache call = inr done ->
  token_cache done = false ->
  exists p,
    prepare getTokenCount random' self messages promptOpts tempKey = inr p /\
    c_model done = p_model p /\
    token_prompt done = p_promptTokenCount p /\
    fst (getCacheChatCompletion (cache Cache call) (p_prompt p) (p_opt p)
           (p_messages p) cacheGrp (p_tempKey p)) = Some (completion done).
Proof.
  intros K call R M; subst call. revert R.
  rewrite (prepare_stable self messages promptOpts tempKey random' random K).
  unfold getChatCompletion.
  destruct (prepare getTokenCount random self messages promptOpts tempKey)
    as [e|p]; [discriminate|].
  destruct (getCacheChatCompletion c _ _ _ _ _) as [cacheRes c1].
  exists p. revert R.
  destruct cacheRes as [[]|];
    try (cbn; intros [= <-]; discriminate M);
    (destruct (answer (dispatch callProvider self p)) as [e|fresh];
       [discriminate|]);
    cbn; intros [= <-]; cbn; auto using lawfulCache.
Qed.

(** X15: after a call that missed the cache and returned a completion
    other than [null], the same call on a lawful cache is served from the
    cache: it returns the same completion flagged [cache = true] and hands
    it to the listener once, whatever the provider would answer. *)
Theorem repeated_call_hits
    (callProvider callProvider' : Provider -> value -> Options -> json -> ProviderRun)
    (random random' : Q)
    (self : Bridge) (c : Cache) (messages : json) (promptOpts : PromptOpts)
    (cacheGrp : string) (tempKey : Z) (done : Completion) :
  keyed self promptOpts tempKey ->
  let first := getChatCompletion Cache getCacheChatCompletion addCacheChatCompletion
                 getTokenCount callProvider random
                 self c messages promptOpts cacheGrp tempKey in
  returned Cache first = inr done ->
  token_cache done = false ->
  completion done <> JNull ->
  let second := getChatCompletion Cache getCacheChatCompletion addCacheChatCompletion
                  getTokenCount callProvider' random'
                  self (cache Cache first) messages promptOpts cacheGrp tempKey in
  returned Cache second =
    inr {| c_model := c_model done; completion := completion done;
           token_prompt := token_prompt done;
           token_completion := getTokenCount (completion done);
           token_cache := true |} /\
  listened Cache second = [completion done].
Proof.
  intros K first R M N second; subst second.
  destruct (second_lookup callProvider callProvider' random random'
              self c messages promptOpts cacheGrp tempKey done K R M)
    as (p & P & Em & Et & L).
  fold first in L. unfold getChatCompletion. rewrite P.
  destruct (getCacheChatCompletion (cache Cache first) _ _ _ _ _) as [cacheRes c2].
  cbn in L. subst cacheRes. rewrite Em, Et.
  destruct (completion done); try contradiction; auto.
Qed.

(** X16: a [null] completion is written to the cache and never served
    from it: the same call misses again and goes to the provider. *)
Theorem null_completion_is_not_served
    (callProvider callProvider' : Provider -> value -> Options -> json -> ProviderRun)
    (random random' : Q)
    (self : Bridge) (c : Cache) (messages : json) (promptOpts : PromptOpts)
    (cacheGrp : string) (tempKey : Z) (done : Completion) :
  keyed self promptOpts tempKey ->
  let first := getChatCompletion Cache getCacheChatCompletion addCacheChatCompletion
                 getTokenCount callProvider random
                 self c messages promptOpts cacheGrp tempKey in
  returned Cache first = inr done ->
  token_cache done = false ->
  completion done = JNull ->
  let second := getChatCompletion Cache getCacheChatCompletion addCacheChatCompletion
                  getTokenCount callProvider' random'
                  self (cache Cache first) messages promptOpts cacheGrp tempKey in
  exists p,
    prepare getTokenCount random' self messages promptOpts tempKey = inr p /\
    listened Cache second = streamed (dispatch callProvider' self p) /\
    forall done', returned Cache second = inr done' ->
                  token_cache done' = false /\
                  answer (dispatch callProvider' self p) = inr (completion done').
Proof.
  intros K first R M N second; subst second.
  destruct (second_lookup callProvider callProvider' random random'
              self c messages promptOpts cacheGrp tempKey done K R M)
    as (p & P & Em & Et & L).
  fold first in L. exists p. split; [exact P|].
  unfold getChatCompletion. rewrite P.
  destruct (getCacheChatCompletion (cache Cache first) _ _ _ _ _) as [cacheRes c2].
  cbn in L. subst cacheRes. rewrite N.
  destruct (answer (dispatch callProvider' self p)) as [e|fresh] eqn:A; cbn.
  - split; [reflexivity|]. intros done' [=].
  - split; [reflexivity|]. intros done' [= <-]. cbn. auto.
Qed.
End Repeat.

Lemma sample_lawful : lawful sampleGet sampleAdd.
Proof.
  intros c prompt completion opt messages cacheGrp tempKey.
  unfold sampleGet, sampleAdd; cbn.
  induction c as [|[k v] c IH]; cbn.
  - now rewrite String.eqb_refl.
  - destruct (String.eqb_spec prompt k) as [->|N]; cbn.
    + now rewrite String.eqb_refl.
    + apply String.eqb_neq in N. now rewrite N.
Defined.

Lemma repeated_call_hits_witness :
  listened sampleCache
    (getChatCompletion sampleCache sampleGet sampleAdd sampleTokens silentProvider (1 # 3)
       sampleBridge
       (cache sampleCache
          (getChatCompletion sampleCache sampleGet sampleAdd sampleTokens sampleProvider
             (1 # 2) sampleBridge [] (JStr "hi") noOpts "default" (-1)))
       (JStr "hi") noOpts "default" (-1))
  = [JStr "fresh"].
Proof.
  refine (proj2 (repeated_call_hits sampleCache sampleGet sampleAdd sampleTokens
                   sample_lawful sampleProvider silentProvider (1 # 2) (1 # 3)
                   sampleBridge [] (JStr "hi") noOpts "default" (-1)
                   {| c_model := "gpt-3.5-turbo-1106"; completion := JStr "fresh";
                      token_prompt := 3; token_completion := 3;
                      token_cache := false |} _ _ _ _)).
  - right. exists 0. split; reflexivity.
  - vm_compute. reflexivity.
  - reflexivity.
  - discriminate.
Defined.

Lemma null_completion_is_not_served_witness :
  exists p,
    prepare sampleTokens (1 # 3) sampleBridge (JStr "hi") noOpts (-1) = inr p /\
    listened sampleCache
      (getChatCompletion sampleCache sampleGet sampleAdd sampleTokens sampleProvider
         (1 # 3) sampleBridge
         (cache sampleCache
            (getChatCompletion sampleCache sampleGet sampleAdd sampleTokens
               silentProvider (1 # 2) sampleBridge [] (JStr "hi") noOpts "default" (-1)))
         (JStr "hi") noOpts "default" (-1))
    = streamed (dispatch sampleProvider sampleBridge p).
Proof.
  destruct (null_completion_is_not_served sampleCache sampleGet sampleAdd sampleTokens
              sample_lawful silentProvider sampleProvider (1 # 2) (1 # 3)
              sampleBridge [] (JStr "hi") noOpts "default" (-1)
              {| c_model := "gpt-3.5-turbo-1106"; completion := JNull;
                 token_prompt := 3; token_completion := 3; token_cache := false |})
    as (p & P & L & _).
  - right. exists 0. split; reflexivity.
  - vm_compute. reflexivity.
  - reflexivity.
  - reflexivity.
  - exists p. split; assumption.
Defined.




End AiBridgeLaws.

(** ** Laws of the request check *)

Module OpenAIRequestLaws.
Import JSString JS AiBridge OpenAIRequest.

Lemma checkEach_passes (messages : json) (l : list json) :
  checkEach messages l = inr tt <-> forallb hasContent l = true.
Proof.
  induction l as [|msg l IH]; cbn [checkEach forallb]; [tauto|].
  unfold hasContent at 1, optprop.
  destruct (prop (Some msg) "content") as [e|content].
  - change (nullish None) with true. cbn [negb andb]. split; discriminate.
  - destruct (nullish content); cbn [negb andb]; [split; discriminate|exact IH].
Qed.

Lemma checkEach_fails (messages : json) (l : list json) (e : thrown) :
  checkEach messages l = inl e -> e = TypeError \/ e = contentIsNull messages.
Proof.
  induction l as [|msg l IH]; cbn [checkEach]; [discriminate|].
  destruct (prop (Some msg) "content") as [e'|content] eqn:P.
  - intros [= <-]. left. destruct msg; cbn in P; congruence.
  - destruct (nullish content); [intros [= <-]; now right|exact IH].
Qed.

(** X17: the request check on an array of messages and on a string: an array
    passes exactly when every message is there and has a content; when it
    does not pass, what is thrown is a TypeError (a message is [null]) or
    the text that quotes the messages; a string always passes, as one
    user message. *)
Theorem checked_messages (l : list json) (s : string) :
  (checked (JArr l) = inr (JObj [("messages", JArr l)])
   <-> forallb hasContent l = true) /\
  (forall e, checked (JArr l) = inl e ->
             e = TypeError \/ e = contentIsNull (JArr l)) /\
  checked (JStr s)
  = inr (JObj [("messages",
                JArr [JObj [("role", JStr "user"); ("content", JStr s)]])]).
Proof.
  unfold checked; cbn. repeat split.
  - destruct (checkEach (JArr l) l) as [e|[]] eqn:C; [discriminate|].
    intros _. now apply (checkEach_passes (JArr l)).
  - intros H. apply (checkEach_passes (JArr l)) in H. now rewrite H.
  - intros e. destruct (checkEach (JArr l) l) as [e'|[]] eqn:C; [|discriminate].
    intros [= <-]. now apply checkEach_fails in C.
Qed.

(** X18: what the bridge makes of a string or of a single message passes the
    request check of the provider call, in whatever options it travels. *)
Theorem bridge_messages_pass
    (messages normalized : json) (fields : list (string * json)) :
  single messages = true ->
  normalizeMessages messages = inr normalized ->
  assoc "messages" fields = Some normalized ->
  checked (JObj fields) = inr (JObj fields).
Proof.
  intros S N A. unfold checked, contentCheck; cbn [shape prop]. rewrite A.
  destruct messages as [| | |s| |fs]; try discriminate.
  - injection N as <-. reflexivity.
  - cbn in S, N. apply andb_true_iff in S as [R C]. rewrite R, C in N.
    injection N as <-. cbn.
    destruct (nullish (assoc "content" fs)); [discriminate|reflexivity].
Qed.

Lemma bridge_messages_pass_witness :
  checked (JObj [("model", JStr "gpt-4");
                 ("messages",
                  JArr [JObj [("role", JStr "user"); ("content", JStr "hi")]])])
  = inr (JObj [("model", JStr "gpt-4");
               ("messages",
                JArr [JObj [("role", JStr "user"); ("content", JStr "hi")]])]).
Proof.
  exact (bridge_messages_pass (JStr "hi")
           (JArr [JObj [("role", JStr "user"); ("content", JStr "hi")]])
           [("model", JStr "gpt-4");
            ("messages", JArr [JObj [("role", JStr "user"); ("content", JStr "hi")]])]
           eq_refl eq_refl eq_refl).
Defined.

End OpenAIRequestLaws.

(** ** Laws of the completion endpoint *)

Module LegacyCompletionLaws.
Import JSString JS OpenAI LegacyCompletion.

Section Cases.
Variable reqJson : json.
Variable useRawApi : bool.
Variable fetch : nat -> FetchResult.

(** The loop, attempt by attempt. *)
Lemma legacy_cases :
  plainRequest reqJson useRawApi fetch =
  match passOf useRawApi (fetch 0%nat) with
  | Settled v calls =>
      {| result := Return v; listener := calls; console := []; fetches := 1 |}
  | p0 =>
      match passOf useRawApi (fetch 1%nat) with
      | Settled v calls =>
          {| result := Return v; listener := calls; console := []; fetches := 2 |}
      | p1 =>
          let st := {| respJson := bodyAfter (fetch 1%nat) (bodyAfter (fetch 0%nat) JNull);
                       respErr := caughtIn p1 (caughtIn p0 None);
                       warned := []; tries := 2 |} in
          {| result := Throw (ErrorObj MISSING); listener := [];
             console := [report reqJson st]; fetches := 2 |}
      end
  end.
Proof.
  unfold plainRequest, passOf, bodyAfter; cbn [requestLoop tries].
  destruct (fetch 0%nat) as [e0|j0]; cbn.
  - destruct (fetch 1%nat) as [e1|j1]; cbn; [reflexivity|].
    destruct (tryBody useRawApi j1); reflexivity.
  - destruct (tryBody useRawApi j0); cbn; [reflexivity| |];
      (destruct (fetch 1%nat) as [e1|j1]; cbn; [reflexivity|]);
      destruct (tryBody useRawApi j1); reflexivity.
Qed.
End Cases.




(** X20: when neither attempt settles, the completion endpoint raises the
    fixed error after two fetches, without a call of the listener; the one
    warning reports the error caught last, which may be the first
    attempt's, and the last raw response when nothing was caught: a body
    without a text is tried again, not thrown on. *)
Theorem legacy_exhausted
    (reqJson : json) (useRawApi : bool) (fetch : nat -> FetchResult) :
  settled (passOf useRawApi (fetch 0%nat)) = false ->
  settled (passOf useRawApi (fetch 1%nat)) = false ->
  let r := plainRequest reqJson useRawApi fetch in
  let lastErr := caughtIn (passOf useRawApi (fetch 1%nat))
                   (caughtIn (passOf useRawApi (fetch 0%nat)) None) in
  let lastBody := bodyAfter (fetch 1%nat) (bodyAfter (fetch 0%nat) JNull) in
  result r = Throw (ErrorObj MISSING) /\
  listener r = [] /\
  fetches r = 2%nat /\
  console r =
    [[LStr (join NL
              [ "## Unable to handle prompt for ...";
                JSON.stringify reqJson;
                match lastErr with
                | Some e => if thrownTruthy e then "## Recieved error ..."
                            else "## Recieved response ..."
                | None => "## Recieved response ..."
                end;
                match lastErr with
                | Some e => if thrownTruthy e then thrownToString e
                            else JSON.stringify lastBody
                | None => JSON.stringify lastBody
                end ])]].
Proof.
  intros S0 S1 r lastErr lastBody; subst r lastErr lastBody.
  rewrite legacy_cases.
  destruct (passOf useRawApi (fetch 0%nat)) as [| e0 |]; try discriminate;
    destruct (passOf useRawApi (fetch 1%nat)) as [| e1 |]; try discriminate;
    cbn; repeat split; unfold report; cbn;
    repeat match goal with
           | |- context [thrownTruthy ?e] => destruct (thrownTruthy e)
           end; reflexivity.
Qed.

Lemma legacy_exhausted_witness :
  mentions
    (lastReport (plainRequest request false
                   (net (FetchBody (JObj [])) (FetchBody (JObj [("id", JNum 7)])))))
    (JSON.stringify (JObj [("id", JNum 7)])) = true.
Proof.
  pose proof (legacy_exhausted request false
                (net (FetchBody (JObj [])) (FetchBody (JObj [("id", JNum 7)])))
                eq_refl eq_refl) as (_ & _ & _ & C).
  unfold lastReport. rewrite C. vm_compute. reflexivity.
Defined.

End LegacyCompletionLaws.

(** ** Laws of [getEmbedding] *)

Module AiBridgeEmbeddingLaws.
Import JSString JS AiBridge AiBridgeEmbedding.

Section Repeat.
Variable Cache : Type.
Variable getCacheEmbedding :
  Cache -> json -> list (string * json) -> string -> value * Cache.
Variable addCacheEmbedding :
  Cache -> json -> json -> list (string * json) -> string -> Cache.
Variable getTokenCount : json -> Z.
Variable defaults : list (string * json).
Variable lawfulCache : lawfulEmbeddings getCacheEmbedding addCacheEmbedding.

(** X21: after a call that missed the cache and returned a truthy embedding,
    the same call on a lawful cache is served from the cache: it returns
    the same object, flagged [cache = true], whatever the provider would
    answer, failure included. *)
Theorem repeated_embedding_hits
    (provider provider' : value -> list (string * json) -> thrown + json)
    (self : Bridge) (c : Cache) (prompt : json)
    (embeddingOpt : list (string * json)) (cacheGrp : string) (done : Embedded) :
  let first := getEmbedding Cache getCacheEmbedding addCacheEmbedding getTokenCount
                 provider defaults self c prompt embeddingOpt cacheGrp in
  e_returned Cache first = inr done ->
  e_cache done = false ->
  truthy (Some (embedding done)) = true ->
  let second := getEmbedding Cache getCacheEmbedding addCacheEmbedding getTokenCount
                  provider' defaults self (e_store Cache first)
                  prompt embeddingOpt cacheGrp in
  e_returned Cache second =
    inr {| e_model := e_model done; embedding := embedding done;
           token_embedding := token_embedding done; e_cache := true |}.
Proof.
  intros first R M T second; subst second first. revert R.
  unfold getEmbedding.
  set (opt := embeddingOptions defaults prompt embeddingOpt).
  destruct (getCacheEmbedding c prompt opt cacheGrp) as [cacheRes c1].
  destruct (OpenAI.whenTruthy cacheRes) as [cached|].
  - cbn. intros [= <-]. discriminate M.
  - destruct (provider (_openai_key self) opt) as [e|fresh]; [discriminate|].
    cbn. intros [= <-]. cbn [embedding e_model token_embedding] in *.
    pose proof (lawfulCache c1 prompt fresh opt cacheGrp) as L.
    destruct (getCacheEmbedding (addCacheEmbedding c1 prompt fresh opt cacheGrp)
                prompt opt cacheGrp) as [cacheRes2 c2].
    cbn in L. subst cacheRes2. unfold OpenAI.whenTruthy. rewrite T. reflexivity.
Qed.
End Repeat.

Lemma vector_lawful : lawfulEmbeddings vectorGet vectorAdd.
Proof.
  intros c prompt embedding opt cacheGrp.
  unfold vectorGet, vectorAdd. cbn [fst].
  generalize (JSON.stringify (JObj opt)). intros key.
  induction c as [|[k v] c IH]; cbn.
  - now rewrite String.eqb_refl.
  - destruct (String.eqb_spec key k) as [->|N]; cbn.
    + now rewrite String.eqb_refl.
    + apply String.eqb_neq in N. now rewrite N.
Defined.

Lemma repeated_embedding_hits_witness :
  e_returned vectorStore
    (getEmbedding vectorStore vectorGet vectorAdd sampleTokens failingProvider
       [("model", JStr "text-embedding-ada-002")] sampleBridge
       (e_store vectorStore
          (getEmbedding vectorStore vectorGet vectorAdd sampleTokens vectorProvider
             [("model", JStr "text-embedding-ada-002")] sampleBridge
             [] (JStr "hello") [] "default"))
       (JStr "hello") [] "default")
  = inr {| e_model := Some (JStr "text-embedding-ada-002");
           embedding := JArr [JNum 1; JNum 2; JNum 3];
           token_embedding := 3; e_cache := true |}.
Proof.
  exact (repeated_embedding_hits vectorStore vectorGet vectorAdd sampleTokens
           [("model", JStr "text-embedding-ada-002")] vector_lawful
           vectorProvider failingProvider sampleBridge [] (JStr "hello") [] "default"
           {| e_model := Some (JStr "text-embedding-ada-002");
              embedding := JArr [JNum 1; JNum 2; JNum 3];
              token_embedding := 3; e_cache := false |}
           eq_refl eq_refl eq_refl).
Defined.

End AiBridgeEmbeddingLaws.
